(** * detect_secrets.plugins.common.initialize

  A shallow embedding of [detect_secrets/plugins/common/initialize.py]
  and the properties of the plugin configuration merger.

  Python objects that the code shares and updates in place (the
  parameter dictionaries) live in an explicit store; dictionaries keep
  their insertion order; exceptions and diagnostics are threaded through
  a small state-and-error monad. *)

From Stdlib Require Import ZArith Ascii.
From stdpp Require Import base sets list strings.

Set Default Proof Using "Type".
#[local] Set Warnings "-clear-no-such-hyp".

(** ** Insertion-ordered dictionaries

  A Python [dict] with string keys: an association list in insertion
  order.  A list stands for a dictionary when its keys are pairwise
  distinct ([dict_wf]); every operation below keeps that invariant. *)

Abbreviation pdict V := (list (string * V)).

Section dict_ops.
Context {V : Type}.

Definition dict_keys (d : pdict V) : list string := d.*1.

Definition dict_wf (d : pdict V) : Prop := NoDup (dict_keys d).

(** [d.get(k)]; [None] is the key error of [d[k]]. *)
Fixpoint dict_get (k : string) (d : pdict V) : option V :=
  match d with
  | [] => None
  | (k', v) :: d' => if decide (k = k') then Some v else dict_get k d'
  end.

(** [k in d] *)
Definition dict_mem (k : string) (d : pdict V) : bool :=
  bool_decide (is_Some (dict_get k d)).

(** [d[k] = v]: an existing key keeps its position, a new one goes last. *)
Fixpoint dict_set (k : string) (v : V) (d : pdict V) : pdict V :=
  match d with
  | [] => [(k, v)]
  | (k', v') :: d' =>
      if decide (k = k') then (k', v) :: d' else (k', v') :: dict_set k v d'
  end.

(** [del d[k]] without the key error. *)
Fixpoint dict_del (k : string) (d : pdict V) : pdict V :=
  match d with
  | [] => []
  | (k', v') :: d' =>
      if decide (k = k') then d' else (k', v') :: dict_del k d'
  end.

(** [d.pop(k)]: the value and what is left, [None] for the key error. *)
Definition dict_pop (k : string) (d : pdict V) : option (V * pdict V) :=
  match dict_get k d with
  | Some v => Some (v, dict_del k d)
  | None => None
  end.

(** [{k: v for k, v in items}] *)
Definition dict_comprehension (items : list (string * V)) : pdict V :=
  foldl (λ acc kv, dict_set kv.1 kv.2 acc) [] items.
End dict_ops.

(** ** Values, exceptions, diagnostics *)

(** Parameter values; the code only moves them around.  A float is kept as
  the dyadic number [m * 2^e] it denotes. *)
Inductive pyval : Type :=
| VNone
| VBool (b : bool)
| VInt (z : Z)
| VFloat (m e : Z)
| VStr (s : string)
| VTuple (items : list string).  (* a tuple of strings, as plugin_filenames *)

Inductive exn : Type :=
| KeyError
| TypeError
| OtherError (what : string)
| BadRef.  (* a reference to no object: cannot happen in Python *)

Inductive result (A : Type) : Type :=
| Ok (a : A)
| Raise (e : exn).
Arguments Ok {A} a.
Arguments Raise {A} e.

Inductive diag : Type :=
| LogWarning (msg : string)   (* log.warning(msg) *)
| LogDebug (msg : string)     (* log.debug(msg) *)
| PrintStderr (text : string). (* print(..., file=sys.stderr) *)

(** ** The store and the monad *)

Abbreviation loc := nat.

Record state : Type := State {
heap : list (pdict pyval);  (* the dict objects, by reference *)
diags : list diag;          (* what was logged or printed, oldest first *)
}.

Definition M (A : Type) : Type := state → result A * state.

#[global] Instance M_ret : MRet M := λ A a s, (Ok a, s).
#[global] Instance M_bind : MBind M := λ A B f m s,
match m s with
| (Ok a, s') => f a s'
| (Raise e, s') => (Raise e, s')
end.

Definition raise {A} (e : exn) : M A := λ s, (Raise e, s).

Definition lift_result {A} (r : result A) : M A := λ s, (r, s).

(** [try: m  except E: handler] where [handles] recognises [E]. *)
Definition try_except {A} (m : M A) (handles : exn → bool) (handler : M A) : M A :=
λ s, match m s with
     | (Ok a, s') => (Ok a, s')
     | (Raise e, s') => if handles e then handler s' else (Raise e, s')
     end.

Definition is_KeyError (e : exn) : bool :=
match e with KeyError => true | _ => false end.
Definition is_TypeError (e : exn) : bool :=
match e with TypeError => true | _ => false end.

Definition emit (d : diag) : M unit :=
λ s, (Ok tt, State (heap s) (diags s ++ [d])).

(** The dict object behind a reference. *)
Definition deref (r : loc) : M (pdict pyval) :=
λ s, match heap s !! r with
     | Some d => (Ok d, s)
     | None => (Raise BadRef, s)
     end.

Definition store (r : loc) (d : pdict pyval) : M unit :=
λ s, (Ok tt, State (<[r := d]> (heap s)) (diags s)).

(** A new dict object. *)
Definition alloc (d : pdict pyval) : M loc :=
λ s, (Ok (length (heap s)), State (heap s ++ [d]) (diags s)).

(** [d[k]] on a mapping held by value. *)
Definition getitem {V} (d : pdict V) (k : string) : M V :=
match dict_get k d with
| Some v => mret v
| None => raise KeyError
end.

(** [r[k]], [r[k] = v], [dict(r)] and [r.pop(k)] on a dict object. *)
Definition getitem_at (r : loc) (k : string) : M pyval :=
d ← deref r; getitem d k.

Definition setitem_at (r : loc) (k : string) (v : pyval) : M unit :=
d ← deref r; store r (dict_set k v d).

Definition dict_copy (r : loc) : M loc :=
d ← deref r; alloc d.

Definition pop_at (r : loc) (k : string) : M pyval :=
d ← deref r;
match dict_pop k d with
| Some (v, d') => store r d';; mret v
| None => raise KeyError
end.

(** [for x in xs: body(x)] *)
Fixpoint for_each {A} (xs : list A) (body : A → M unit) : M unit :=
match xs with
| [] => mret tt
| x :: xs' => body x;; for_each xs' body
end.

(** ** The program *)

(** [args], as the merger reads it. *)
Record Args : Type := {
  plugins : pdict loc;                 (* name -> its parameter dict object *)
  is_using_default_value : pdict bool; (* parameter name -> value is a default *)
  use_all_plugins : bool;
  no_verify : bool;
  exclude_lines : option string;
  plugin_filenames : pyval;
}.

(** [s.replace('_', '-')] *)
Fixpoint replace_underscore (s : string) : string :=
  match s with
  | EmptyString => EmptyString
  | String c s' =>
      String (if decide (c = "_"%char) then "-"%char else c) (replace_underscore s')
  end.

Definition newline : string := String "010"%char EmptyString.
Definition yellow : string := String "027"%char "[93m".
Definition end_yellow : string := String "027"%char "[0m".

(** [print] to [sys.stderr]: the items joined by a space, then a newline. *)
Definition print_stderr (items : list string) : M unit :=
  emit (PrintStderr (String.concat " " items +:+ newline)).

(** A call [f(a=.., b=.., **kw)] raises [TypeError] when [kw] repeats a
    keyword that the call already gives. *)
Definition splat_clash (given : list string) (kw : pdict pyval) : bool :=
  existsb (λ k, dict_mem k kw) given.

(** The name of a plugin is the name of its class, a string; the mappings
    of this module are keyed by strings, and a record whose name is
    anything else is outside the type of the input. *)
Definition as_plugin_name (v : pyval) : M string :=
  match v with
  | VStr s => mret s
  | _ => raise TypeError
  end.

(** [v == classname] for a string [classname] *)
Definition eq_str (v : pyval) (classname : string) : bool :=
  match v with
  | VStr s => bool_decide (s = classname)
  | _ => false
  end.

Section initialize.

(** What the module receives from outside: the types of plugin instances
    and of the word automaton, the plugin catalog of [.util] and the
    disabled-plugins accessor of [detect_secrets.core.usage]. *)
Context {Instance Automaton : Type}.

(** A plugin class, called as
    [klass(exclude_lines_regex=.., automaton=.., should_verify=.., **kwargs)]. *)
Definition Klass : Type :=
  option string → option Automaton → bool → pdict pyval → result Instance.

Context (import_plugins : pyval → result (pdict Klass)).
Context (get_mapping_from_secret_type_to_class_name : pyval → result (pdict string)).
Context (get_disabled_plugins : Args → list string).

Definition no_such_plugin (plugin_classname : string) : list string :=
  [ yellow;
    "Warning: No such " +:+ plugin_classname +:+ " plugin to initialize." +:+ newline;
    "Chances are you've disabled it with command line options,";
    "or need to run `pre-commit autoupdate`." +:+ newline;
    "This error occurs when using a baseline file that";
    "references a plugin which is disabled or not installed.";
    end_yellow ].

(** [klass(exclude_lines_regex=.., automaton=.., should_verify=.., **kwargs)] *)
Definition construct (klass : Klass) (exclude_lines_regex : option string)
    (automaton : option Automaton) (should_verify : bool)
    (kwargs : pdict pyval) : result Instance :=
  if splat_clash ["exclude_lines_regex"; "automaton"; "should_verify"] kwargs
  then Raise TypeError
  else klass exclude_lines_regex automaton should_verify kwargs.

(** [from_plugin_classname] with its parameters bound; [kwargs] holds the
    keywords that are left.  [None] is Python's [None]. *)
Definition from_plugin_classname (plugin_classname : string)
    (exclude_lines_regex : option string) (automaton : option Automaton)
    (should_verify_secrets : bool) (plugin_filenames : pyval)
    (kwargs : pdict pyval) : M (option Instance) :=
  found ← try_except
    (catalog ← lift_result (import_plugins plugin_filenames);
     klass ← getitem catalog plugin_classname;
     mret (Some klass))
    is_KeyError
    (print_stderr (no_such_plugin plugin_classname);; mret None);
  match found with
  | None => mret None
  | Some klass =>
      try_except
        (instance ← lift_result
           (construct klass exclude_lines_regex automaton should_verify_secrets kwargs);
         mret (Some instance))
        is_TypeError
        (emit (LogWarning "Unable to initialize plugin!");; raise TypeError)
  end.

(** The loop of [from_parser_builder]: [for plugin_name in plugins_dict],
    [output.append(from_plugin_classname(plugin_name, .., **plugins_dict[plugin_name]))]. *)
Fixpoint from_parser_builder_loop (plugins_dict : pdict loc) (names : list string)
    (exclude_lines_regex : option string) (automaton : option Automaton)
    (should_verify_secrets : bool) (plugin_filenames : pyval)
    (output : list (option Instance)) : M (list (option Instance)) :=
  match names with
  | [] => mret output
  | plugin_name :: names' =>
      params ← getitem plugins_dict plugin_name;
      kw ← deref params;
      slot ←
        (if splat_clash ["plugin_classname"; "exclude_lines_regex"; "automaton";
                         "should_verify_secrets"; "plugin_filenames"] kw
         then raise TypeError
         else from_plugin_classname plugin_name exclude_lines_regex automaton
                should_verify_secrets plugin_filenames kw);
      from_parser_builder_loop plugins_dict names' exclude_lines_regex automaton
        should_verify_secrets plugin_filenames (output ++ [slot])
  end.

(** The tuple is a list. *)
Definition from_parser_builder (plugins_dict : pdict loc)
    (exclude_lines_regex : option string) (automaton : option Automaton)
    (should_verify_secrets : bool) (plugin_filenames : pyval)
    : M (list (option Instance)) :=
  from_parser_builder_loop plugins_dict (dict_keys plugins_dict) exclude_lines_regex
    automaton should_verify_secrets plugin_filenames [].

(** The generator, together with the [for] loop that consumes it:
    [consume] is the body of that loop, run at each [yield].  The items of a
    parameter dict are read when the outer loop reaches its plugin, as the
    lazy generator does. *)
Definition _get_prioritized_parameters (plugins_dict : pdict loc)
    (is_using_default_value_map : pdict bool) (prefer_default : bool)
    (consume : string → string → pyval → M unit) : M unit :=
  for_each plugins_dict (λ entry,
    let '(plugin_name, plugin_params) := entry in
    items ← deref plugin_params;
    for_each items (λ item,
      let '(param_name, param_value) := item in
      let is_using_default :=
        default false (dict_get param_name is_using_default_value_map) in
      if bool_decide (is_using_default = prefer_default)
      then consume plugin_name param_name param_value
      else mret tt)).

Definition _remove_key (d : loc) (key : string) : M loc :=
  r ← dict_copy d;
  pop_at r key;;
  mret r.

(** [{vars(plugin)['name']: _remove_key(vars(plugin), 'name') for plugin in
    baseline_plugins}]; a plugin object is the reference to its [vars]. *)
Fixpoint baseline_plugins_dict_from (baseline_plugins : list loc)
    (acc : pdict loc) : M (pdict loc) :=
  match baseline_plugins with
  | [] => mret acc
  | plugin :: rest =>
      name ← getitem_at plugin "name";
      key ← as_plugin_name name;
      params ← _remove_key plugin "name";
      baseline_plugins_dict_from rest (dict_set key params acc)
  end.

(** [plugins_dict[plugin_name][param_name] = param_value], and the
    diagnostic of the [except KeyError] branch. *)
Definition assign_or (plugins_dict : pdict loc) (otherwise : M unit)
    (plugin_name param_name : string) (param_value : pyval) : M unit :=
  try_except
    (params ← getitem plugins_dict plugin_name;
     setitem_at params param_name param_value)
    is_KeyError
    otherwise.

(** [plugins_dict] as it stands at the [return] of
    [merge_plugins_from_baseline]: the resolved configuration. *)
Definition resolved_plugins_dict (baseline_plugins : list loc) (args : Args)
    : M (pdict loc) :=
  baseline_plugins_dict ← baseline_plugins_dict_from baseline_plugins [];
  if use_all_plugins args then
    (* dict(args.plugins): a new outer mapping over the same dict objects *)
    let plugins_dict := plugins args in
    _get_prioritized_parameters baseline_plugins_dict (is_using_default_value args) true
      (λ plugin_name param_name param_value,
         assign_or plugins_dict
           (emit (LogWarning ("Baseline contains plugin " +:+ plugin_name
                              +:+ " which is not in all plugins! Ignoring...")))
           plugin_name param_name param_value);;
    mret plugins_dict
  else
    let disabled_plugins := get_disabled_plugins args in
    let plugins_dict :=
      dict_comprehension
        (filter (λ entry, entry.1 ∉ disabled_plugins) baseline_plugins_dict) in
    let input_plugins_dict := plugins args in
    _get_prioritized_parameters input_plugins_dict (is_using_default_value args) false
      (λ plugin_name param_name param_value,
         assign_or plugins_dict
           (emit (LogDebug ("--" +:+ replace_underscore param_name
                            +:+ " specified, but " +:+ plugin_name
                            +:+ " not configured! Ignoring...")))
           plugin_name param_name param_value);;
    mret plugins_dict.

Definition merge_plugins_from_baseline (baseline_plugins : list loc) (args : Args)
    (automaton : option Automaton) : M (list (option Instance)) :=
  plugins_dict ← resolved_plugins_dict baseline_plugins args;
  from_parser_builder plugins_dict (exclude_lines args) automaton
    (negb (no_verify args)) (plugin_filenames args).

(** The loop of [from_secret_type] over [settings]; falling off its end
    returns [None]. *)
Fixpoint from_secret_type_loop (classname : string) (settings : list loc)
    : M (option Instance) :=
  match settings with
  | [] => mret None
  | plugin :: rest =>
      name ← getitem_at plugin "name";
      if eq_str name classname then
        plugin_init_vars ← dict_copy plugin;
        pop_at plugin_init_vars "name";;
        kw ← deref plugin_init_vars;
        (* a [plugin_filenames] entry binds the parameter of that name *)
        if splat_clash ["plugin_classname"; "exclude_lines_regex"; "automaton";
                        "should_verify_secrets"] kw
        then raise TypeError
        else from_plugin_classname classname None None false
               (default VNone (dict_get "plugin_filenames" kw))
               (dict_del "plugin_filenames" kw)
      else from_secret_type_loop classname rest
  end.

Definition from_secret_type (secret_type : string) (settings : list loc)
    (plugin_filenames : pyval) : M (option Instance) :=
  mapping ← lift_result (get_mapping_from_secret_type_to_class_name plugin_filenames);
  found ← try_except (classname ← getitem mapping secret_type; mret (Some classname))
            is_KeyError (mret None);
  match found with
  | None => mret None
  | Some classname => from_secret_type_loop classname settings
  end.

End initialize.

(** ** Reading the store *)

(** The value of parameter [param_name] of plugin [plugin_name] in the
    mapping [cfg] whose parameter dicts are in [h]. *)
Definition param_of (cfg : pdict loc) (h : list (pdict pyval))
    (plugin_name param_name : string) : option pyval :=
  r ← dict_get plugin_name cfg; d ← h !! r; dict_get param_name d.

(** The mapping [cfg] with its parameter dicts read out of [h]. *)
Definition deep (h : list (pdict pyval)) (cfg : pdict loc)
    : option (pdict (pdict pyval)) :=
  mapM (λ entry, d ← h !! entry.2; Some (entry.1, d)) cfg.

(** The baseline as data: [records] lists the name and the [vars] of each
    plugin object of [baseline_plugins]. *)
Definition baseline_view (h : list (pdict pyval)) (baseline_plugins : list loc)
    (records : pdict (pdict pyval)) : Prop :=
  Forall2 (λ plugin record,
             h !! plugin = Some record.2 ∧
             dict_get "name" record.2 = Some (VStr record.1))
          baseline_plugins records.

(** The parameters that the baseline gives for a plugin: those of its last
    record of that name, without the name. *)
Definition baseline_params (records : pdict (pdict pyval)) (plugin_name : string)
    : option (pdict pyval) :=
  dict_del "name" <$> dict_get plugin_name (reverse records).

(** Every parameter dict of [cfg] is an object of [h]. *)
Definition refs_valid (h : list (pdict pyval)) (cfg : pdict loc) : Prop :=
  Forall (λ r, r < length h) cfg.*2.

(** ** What the loops compute *)

(** The names of the baseline bound to consecutive new objects from [n] on. *)
Fixpoint bdict_of (names : list string) (n : loc) (acc : pdict loc) : pdict loc :=
  match names with
  | [] => acc
  | name :: names' => bdict_of names' (S n) (dict_set name n acc)
  end.

(** The parameters [items] that the merger takes, written over [d]. *)
Definition overlay (flags : pdict bool) (prefer_default : bool)
    (items d : pdict pyval) : pdict pyval :=
  foldl (λ acc item,
           if bool_decide (default false (dict_get item.1 flags) = prefer_default)
           then dict_set item.1 item.2 acc else acc)
        d items.

(** One plugin of the source mapping written into the target mapping. *)
Definition transfer_step (target : pdict loc) (flags : pdict bool)
    (prefer_default : bool) (h : list (pdict pyval)) (entry : string * loc)
    : list (pdict pyval) :=
  match dict_get entry.1 target, h !! entry.2 with
  | Some r, Some items =>
      match h !! r with
      | Some d => <[r := overlay flags prefer_default items d]> h
      | None => h
      end
  | _, _ => h
  end.

Definition transfer_heap (target : pdict loc) (flags : pdict bool)
    (prefer_default : bool) (src : pdict loc) (h : list (pdict pyval))
    : list (pdict pyval) :=
  foldl (transfer_step target flags prefer_default) h src.

(** The loop of the merger in either context, the generator and its
    consumer together: the source mapping is the baseline's in one context
    and the command line's in the other, [mk] makes the diagnostic. *)
Definition transfer (target : pdict loc) (flags : pdict bool) (prefer_default : bool)
    (mk : string → string → diag) (src : pdict loc) : M unit :=
  _get_prioritized_parameters src flags prefer_default
    (λ plugin_name param_name param_value,
       assign_or target (emit (mk plugin_name param_name))
         plugin_name param_name param_value).

(** Its inner loop, over the parameters of one plugin. *)
Definition transfer_inner (target : pdict loc) (flags : pdict bool)
    (prefer_default : bool) (mk : string → string → diag)
    (plugin_name : string) (items : pdict pyval) : M unit :=
  for_each items (λ item,
    let '(param_name, param_value) := item in
    let is_using_default := default false (dict_get param_name flags) in
    if bool_decide (is_using_default = prefer_default)
    then assign_or target (emit (mk plugin_name param_name))
           plugin_name param_name param_value
    else mret tt).

(** The merger takes parameter [p]: its flag equals [prefer_default]. *)
Definition taken (flags : pdict bool) (prefer_default : bool) (p : string) : Prop :=
  default false (dict_get p flags) = prefer_default.

#[global] Instance taken_dec flags prefer_default p :
  Decision (taken flags prefer_default p) :=
  decide (default false (dict_get p flags) = prefer_default).

(** The store once the baseline mapping is built. *)
Definition with_baseline (h : list (pdict pyval)) (recs : pdict (pdict pyval))
    : list (pdict pyval) :=
  h ++ (dict_del "name" <$> recs.*2).

(** The baseline-seeded mapping of the second context. *)
Definition seeded (get_disabled_plugins : Args → list string) (args : Args)
    (recs : pdict (pdict pyval)) (h : list (pdict pyval)) : pdict loc :=
  filter (λ entry, entry.1 ∉ get_disabled_plugins args)
         (bdict_of recs.*1 (length h) []).


(** ** Well-formed inputs *)

(** Each record of the baseline is a dictionary. *)
Definition records_wf (recs : pdict (pdict pyval)) : Prop :=
  Forall (λ rec, dict_wf rec.2) recs.

(** The command line's mapping and its parameter dicts are dictionaries. *)
Definition args_wf (h : list (pdict pyval)) (args : Args) : Prop :=
  dict_wf (plugins args) ∧
  Forall (λ r, ∀ d, h !! r = Some d → dict_wf d) (plugins args).*2.

(** The keywords that the call in [from_parser_builder] gives by itself. *)
Definition given_keywords : list string :=
  ["plugin_classname"; "exclude_lines_regex"; "automaton";
   "should_verify_secrets"; "plugin_filenames"].

(** The keywords that the call in [from_secret_type] gives by itself. *)
Definition given_by_secret_type : list string :=
  ["plugin_classname"; "exclude_lines_regex"; "automaton"; "should_verify_secrets"].



(** The records of [settings] before the one that is looked for. *)
Definition other_records (h : list (pdict pyval)) (classname : string)
    (settings : list loc) : Prop :=
  Forall (λ q, ∃ dq nm, h !! q = Some dq ∧ dict_get "name" dq = Some nm ∧
                        eq_str nm classname = false) settings.

(** ** Configurations *)

(** The configuration that a baseline records: each plugin with its
    parameters, the name left out. *)
Definition config_of_baseline (recs : pdict (pdict pyval)) : pdict (pdict pyval) :=
  (λ rec, (rec.1, dict_del "name" rec.2)) <$> recs.

(** The mapping [cfg] over the store [h] and the configuration [cfg0] have
    the same plugins with the same parameters. *)
Definition equivalent (h : list (pdict pyval)) (cfg : pdict loc)
    (cfg0 : pdict (pdict pyval)) : Prop :=
  (∀ X, is_Some (dict_get X cfg) ↔ is_Some (dict_get X cfg0)) ∧
  (∀ X p, param_of cfg h X p = ps ← dict_get X cfg0; dict_get p ps).

(** Every parameter that the command line holds has a flag that reads
    "default": the command line overrides nothing. *)
Definition no_overrides (h : list (pdict pyval)) (args : Args) : Prop :=
  ∀ r items p, r ∈ (plugins args).*2 → h !! r = Some items → p ∈ dict_keys items →
               dict_get p (is_using_default_value args) = Some true.

(** The command line names the plugins of the configuration, and for each
    of them no parameter that the configuration lacks. *)
Definition same_shape (h : list (pdict pyval)) (args : Args)
    (cfg0 : pdict (pdict pyval)) : Prop :=
  (∀ X, is_Some (dict_get X (plugins args)) ↔ is_Some (dict_get X cfg0)) ∧
  (∀ X l items ps p,
     dict_get X (plugins args) = Some l → h !! l = Some items →
     dict_get X cfg0 = Some ps → p ∈ dict_keys items → p ∈ dict_keys ps).

(** Every parameter of the configuration has a flag that reads "default". *)
Definition config_defaults (args : Args) (cfg0 : pdict (pdict pyval)) : Prop :=
  ∀ X ps p, dict_get X cfg0 = Some ps → p ∈ dict_keys ps →
            dict_get p (is_using_default_value args) = Some true.

(** ** What the instantiator computes *)

Definition no_such_plugin_warning (X : string) : diag :=
  PrintStderr (String.concat " " (no_such_plugin X) +:+ newline).

Section instantiator.
Context {Instance Automaton : Type}.
Context (import_plugins : pyval → result (pdict (@Klass Instance Automaton))).

(** What [from_plugin_classname] returns and what it logs or prints. *)
Definition instantiate (name : string) (elr : option string)
    (aut : option Automaton) (sv : bool) (pf : pyval) (kw : pdict pyval)
    : result (option Instance) * list diag :=
  match import_plugins pf with
  | Raise KeyError => (Ok None, [no_such_plugin_warning name])
  | Raise e => (Raise e, [])
  | Ok catalog =>
      match dict_get name catalog with
      | None => (Ok None, [no_such_plugin_warning name])
      | Some klass =>
          match construct klass elr aut sv kw with
          | Ok instance => (Ok (Some instance), [])
          | Raise TypeError => (Raise TypeError, [LogWarning "Unable to initialize plugin!"])
          | Raise e => (Raise e, [])
          end
      end
  end.

(** [slot] is what the instantiator returns for the entry [X] of [cfg]. *)
Definition slot_of (cfg : pdict loc) (h : list (pdict pyval)) (elr : option string)
    (aut : option Automaton) (sv : bool) (pf : pyval) (X : string)
    (slot : option Instance) : Prop :=
  ∃ r kw, dict_get X cfg = Some r ∧ h !! r = Some kw ∧
          splat_clash given_keywords kw = false ∧
          (instantiate X elr aut sv pf kw).1 = Ok slot.



End instantiator.

(** ** The diagnostics of the merging loops *)

(** The [log.warning] of the first context and the [log.debug] of the
    second. *)
Definition not_in_all_plugins (plugin_name param_name : string) : diag :=
  LogWarning ("Baseline contains plugin " +:+ plugin_name
              +:+ " which is not in all plugins! Ignoring...").

Definition not_configured (plugin_name param_name : string) : diag :=
  LogDebug ("--" +:+ replace_underscore param_name
            +:+ " specified, but " +:+ plugin_name
            +:+ " not configured! Ignoring...").

(** One diagnostic for each parameter of [items] that the merger takes. *)
Definition skipped_params (flags : pdict bool) (prefer_default : bool)
    (mk : string → string → diag) (plugin_name : string) (items : pdict pyval)
    : list diag :=
  omap (λ item,
          if bool_decide (default false (dict_get item.1 flags) = prefer_default)
          then Some (mk plugin_name item.1) else None)
       items.

(** The diagnostics for the plugins of [src] that are not [known], in the
    order of [src]. *)
Definition skipped (known : string → bool) (flags : pdict bool)
    (prefer_default : bool) (mk : string → string → diag)
    (h : list (pdict pyval)) (src : pdict loc) : list diag :=
  src ≫= λ entry,
    if known entry.1 then []
    else skipped_params flags prefer_default mk entry.1 (default [] (h !! entry.2)).

(** The warnings of the first context: for each record of the baseline
    whose plugin the command line does not name, one for each parameter of
    the record whose flag reads "default". *)
Definition baseline_warnings (args : Args) (recs : pdict (pdict pyval)) : list diag :=
  recs ≫= λ rec,
    if dict_mem rec.1 (plugins args) then []
    else skipped_params (is_using_default_value args) true not_in_all_plugins
           rec.1 (dict_del "name" rec.2).

(** The debug messages of the second context: for each plugin of the
    command line that is not a plugin of the baseline, or is disabled, one
    for each of its parameters whose flag does not read "default". *)
Definition command_line_debug (get_disabled_plugins : Args → list string)
    (args : Args) (recs : pdict (pdict pyval)) (h : list (pdict pyval)) : list diag :=
  skipped (λ X, bool_decide (X ∈ recs.*1 ∧ X ∉ get_disabled_plugins args))
          (is_using_default_value args) false not_configured h (plugins args).


(** ** Example inputs *)

(** An instance that records the class that made it and what it was made
    with. *)
Inductive plugin : Type :=
  | Plugin (classname : string) (should_verify : bool) (kwargs : pdict pyval).

(** A class that takes exactly the keywords [params], and one that takes
    any. *)
Definition strict_class (classname : string) (params : list string)
    : @Klass plugin unit :=
  λ _ _ should_verify kwargs,
    if forallb (λ k, bool_decide (k ∈ params)) (dict_keys kwargs)
       && forallb (λ p, dict_mem p kwargs) params
    then Ok (Plugin classname should_verify kwargs)
    else Raise TypeError.

Definition lenient_class (classname : string) : @Klass plugin unit :=
  λ _ _ should_verify kwargs, Ok (Plugin classname should_verify kwargs).

Definition strict_catalog (_ : pyval) : result (pdict (@Klass plugin unit)) :=
  Ok [("Base64HighEntropyString", strict_class "Base64HighEntropyString" ["base64_limit"]);
      ("KeywordDetector", strict_class "KeywordDetector" ["keyword_exclude"])].

Definition lenient_catalog_table : pdict (@Klass plugin unit) :=
  [("Base64HighEntropyString", lenient_class "Base64HighEntropyString");
   ("KeywordDetector", lenient_class "KeywordDetector")].

Definition lenient_catalog (_ : pyval) : result (pdict (@Klass plugin unit)) :=
  Ok lenient_catalog_table.

Definition example_mapping (_ : pyval) : result (pdict string) :=
  Ok [("Base64 High Entropy String", "Base64HighEntropyString");
      ("Secret Keyword", "KeywordDetector")].

Definition nothing_disabled (_ : Args) : list string := [].
Definition base64_disabled (_ : Args) : list string := ["Base64HighEntropyString"].

(** The command line's [base64_limit] of 4.5 and the baseline's of 3.0. *)
Definition cli_base64 : pdict pyval := [("base64_limit", VFloat 9 (-1))].
Definition cli_keyword : pdict pyval := [("keyword_exclude", VStr "id")].
Definition baseline_base64 : pdict pyval :=
  [("name", VStr "Base64HighEntropyString"); ("base64_limit", VFloat 3 0)].
Definition baseline_removed : pdict pyval :=
  [("name", VStr "RemovedDetector"); ("limit", VInt 7)].

(** The objects of the examples: two parameter dicts of the command line
    at 0 and 3, two plugin objects of a baseline at 1 and 2. *)
Definition example_store : list (pdict pyval) :=
  [cli_base64; baseline_base64; baseline_removed; cli_keyword].

Definition example_state : state := State example_store [].

Definition example_records : pdict (pdict pyval) :=
  [("Base64HighEntropyString", baseline_base64); ("RemovedDetector", baseline_removed)].

Definition example_args (use_all : bool) (flags : pdict bool) : Args :=
  {| plugins := [("Base64HighEntropyString", 0); ("KeywordDetector", 3)];
     is_using_default_value := flags;
     use_all_plugins := use_all;
     no_verify := false;
     exclude_lines := None;
     plugin_filenames := VTuple [] |}.

(** The example of the specification: one plugin on the command line, the
    same plugin in the baseline. *)
Definition spec_example_args (is_default : bool) : Args :=
  {| plugins := [("Base64HighEntropyString", 0)];
     is_using_default_value := [("base64_limit", is_default)];
     use_all_plugins := true;
     no_verify := false;
     exclude_lines := None;
     plugin_filenames := VTuple [] |}.

Definition spec_example_state : state := State [cli_base64; baseline_base64] [].


(** A store in which a parameter has the name of a keyword of the call, a
    class that raises a key error, and a catalog that fails to load. *)
Definition reserved_store : list (pdict pyval) :=
  [cli_base64; [("automaton", VNone)]].

Definition failing_class : @Klass plugin unit := λ _ _ _ _, Raise KeyError.

Definition failing_catalog (_ : pyval) : result (pdict (@Klass plugin unit)) :=
  Ok [("KeywordDetector", failing_class)].

Definition broken_catalog (_ : pyval) : result (pdict (@Klass plugin unit)) :=
  Raise KeyError.


(** * Properties *)

(** ** Dictionaries *)

Section dict_facts.
Context {V : Type}.
Implicit Types (d : pdict V) (k : string) (v : V).

Lemma dict_get_Some_elem k v d : dict_get k d = Some v → (k, v) ∈ d.
Proof.
  induction d as [|[k' v'] d IH]; simpl; [done|].
  case_decide; intros ?; simplify_eq; [left|right; auto].
Qed.

Lemma dict_get_None k d : dict_get k d = None ↔ k ∉ dict_keys d.
Proof.
  unfold dict_keys. induction d as [|[k' v'] d IH]; simpl.
  - split; [intros _; apply not_elem_of_nil|done].
  - rewrite not_elem_of_cons. case_decide; [|tauto].
    split; [done|]. intros [? _]. done.
Qed.

Lemma dict_get_is_Some k d : is_Some (dict_get k d) ↔ k ∈ dict_keys d.
Proof.
  rewrite <-not_eq_None_Some, dict_get_None.
  split; [apply dec_stable|auto].
Qed.

Lemma dict_get_elem k v d : dict_wf d → (k, v) ∈ d → dict_get k d = Some v.
Proof.
  unfold dict_wf, dict_keys. induction d as [|[k' v'] d IH]; simpl.
  - intros _ ?%elem_of_nil. done.
  - rewrite NoDup_cons. intros [Hk Hd] [?|Hin]%elem_of_cons; simplify_eq.
    + by rewrite decide_True.
    + rewrite decide_False; [auto|]. intros ->. apply Hk.
      apply list_elem_of_fmap. by exists (k', v).
Qed.

Lemma dict_get_set_eq k v d : dict_get k (dict_set k v d) = Some v.
Proof.
  induction d as [|[k' v'] d IH]; simpl.
  - by rewrite decide_True.
  - case_decide; simpl; subst; [by rewrite decide_True | by rewrite decide_False].
Qed.

Lemma dict_get_set_ne k k' v d : k ≠ k' → dict_get k (dict_set k' v d) = dict_get k d.
Proof.
  intros Hne. induction d as [|[k0 v0] d IH]; simpl.
  - by rewrite decide_False.
  - destruct (decide (k' = k0)) as [->|]; simpl.
    + by rewrite !decide_False.
    + by rewrite IH.
Qed.

Lemma dict_keys_set k v d :
  dict_keys (dict_set k v d)
  = if decide (k ∈ dict_keys d) then dict_keys d else dict_keys d ++ [k].
Proof.
  unfold dict_keys. induction d as [|[k0 v0] d IH]; [done|].
  cbn [dict_set]. rewrite fmap_cons. cbn [fst].
  destruct (decide (k = k0)) as [->|Hne].
  - rewrite decide_True; [done|left].
  - rewrite fmap_cons, IH. cbn [fst]. destruct (decide (k ∈ d.*1)).
    + rewrite decide_True; [done|by right].
    + rewrite decide_False; [done|]. by intros [?|?]%elem_of_cons.
Qed.

Lemma dict_wf_set k v d : dict_wf d → dict_wf (dict_set k v d).
Proof.
  unfold dict_wf. rewrite dict_keys_set. case_decide; [done|].
  intros Hd. apply NoDup_app. split_and!; [done| |apply NoDup_singleton].
  intros x Hx ->%list_elem_of_singleton. done.
Qed.

Lemma dict_set_fresh k v d : k ∉ dict_keys d → dict_set k v d = d ++ [(k, v)].
Proof.
  unfold dict_keys. induction d as [|[k0 v0] d IH]; simpl; [done|].
  rewrite not_elem_of_cons. intros [? ?]. rewrite decide_False; [|done].
  by rewrite IH.
Qed.

Lemma dict_values_set k v d : (dict_set k v d).*2 ⊆ v :: d.*2.
Proof.
  induction d as [|[k0 v0] d IH]; simpl; [set_solver|].
  case_decide; simpl; set_solver.
Qed.

Lemma dict_values_set_NoDup k v d :
  NoDup d.*2 → v ∉ d.*2 → NoDup (dict_set k v d).*2.
Proof.
  induction d as [|[k0 v0] d IH]; simpl.
  - intros _ _. apply NoDup_singleton.
  - rewrite NoDup_cons, not_elem_of_cons. intros [Hv0 Hd] [Hne Hv].
    case_decide; simpl; rewrite NoDup_cons.
    + done.
    + split; [|auto]. intros Hin%dict_values_set.
      apply elem_of_cons in Hin as [?|?]; [congruence|done].
Qed.

Lemma dict_get_del_ne k k' d : k ≠ k' → dict_get k (dict_del k' d) = dict_get k d.
Proof.
  intros Hne. induction d as [|[k0 v0] d IH]; simpl; [done|].
  destruct (decide (k' = k0)) as [->|]; simpl.
  - by rewrite decide_False.
  - by rewrite IH.
Qed.

Lemma dict_keys_del_subseteq k d : dict_keys (dict_del k d) ⊆ dict_keys d.
Proof.
  unfold dict_keys. induction d as [|[k0 v0] d IH]; simpl; [done|].
  case_decide; simpl; set_solver.
Qed.

Lemma dict_wf_del k d : dict_wf d → dict_wf (dict_del k d).
Proof.
  unfold dict_wf, dict_keys. induction d as [|[k0 v0] d IH]; simpl; [done|].
  rewrite NoDup_cons. intros [Hk0 Hd]. case_decide; simpl; [done|].
  rewrite NoDup_cons. split; [|auto].
  intros Hin. apply Hk0. by apply (dict_keys_del_subseteq k d).
Qed.

Lemma dict_get_del_eq k d : dict_wf d → dict_get k (dict_del k d) = None.
Proof.
  unfold dict_wf, dict_keys. induction d as [|[k0 v0] d IH]; simpl; [done|].
  rewrite NoDup_cons. intros [Hk0 Hd].
  destruct (decide (k = k0)) as [->|]; simpl.
  - by apply dict_get_None.
  - rewrite decide_False; auto.
Qed.

Lemma dict_get_filter_key (P : string * V → Prop) `{!∀ x, Decision (P x)}
    (Q : string → Prop) k d :
  (∀ k' v', P (k', v') ↔ Q k') →
  (Q k → dict_get k (filter P d) = dict_get k d) ∧
  (¬ Q k → dict_get k (filter P d) = None).
Proof.
  intros HPQ. induction d as [|[k0 v0] d [IH1 IH2]]; [done|].
  rewrite filter_cons. destruct (decide (P (k0, v0))) as [HP|HP]; cbn [dict_get].
  - destruct (decide (k = k0)) as [->|]; [|done].
    split; [done|]. intros HQ. by apply HPQ in HP.
  - destruct (decide (k = k0)) as [->|]; [|done].
    split; [|done]. intros HQ. exfalso. apply HP. by apply HPQ.
Qed.

Lemma dict_wf_filter (P : string * V → Prop) `{!∀ x, Decision (P x)} d :
  dict_wf d → dict_wf (filter P d).
Proof.
  unfold dict_wf, dict_keys. intros Hd.
  eapply sublist_NoDup; [done|]. apply fmap_sublist, sublist_filter.
Qed.

Lemma dict_comprehension_app (acc d : pdict V) :
  NoDup (dict_keys (acc ++ d)) →
  foldl (λ acc kv, dict_set kv.1 kv.2 acc) acc d = acc ++ d.
Proof.
  revert acc. induction d as [|[k v] d IH]; intros acc Hnd; simpl.
  - by rewrite app_nil_r.
  - unfold dict_keys in Hnd. rewrite dict_set_fresh.
    + rewrite IH; rewrite <-app_assoc; done.
    + rewrite fmap_app in Hnd. apply NoDup_app in Hnd as (_ & Hdisj & _).
      intros Hin. apply (Hdisj k Hin). left.
Qed.

Lemma dict_comprehension_wf d : dict_wf d → dict_comprehension d = d.
Proof. intros Hd. unfold dict_comprehension. by rewrite dict_comprehension_app. Qed.

(** Distinct values: a value names its key. *)
Lemma dict_get_inj k k' v d :
  NoDup d.*2 → dict_get k d = Some v → dict_get k' d = Some v → k = k'.
Proof.
  intros Hnd H1%dict_get_Some_elem H2%dict_get_Some_elem.
  apply list_elem_of_lookup in H1 as [i Hi], H2 as [j Hj].
  assert (i = j) as ->.
  { eapply NoDup_lookup; [done| |]; rewrite list_lookup_fmap; [by rewrite Hi|by rewrite Hj]. }
  congruence.
Qed.

End dict_facts.

(** ** Running the monad *)

Lemma run_bind {A B} (m : M A) (f : A → M B) s :
  (m ≫= f) s
  = match m s with
    | (Ok a, s') => f a s'
    | (Raise e, s') => (Raise e, s')
    end.
Proof. done. Qed.

Lemma run_bind_Ok {A B} (m : M A) (f : A → M B) s a s' :
  m s = (Ok a, s') → (m ≫= f) s = f a s'.
Proof. intros H. by rewrite run_bind, H. Qed.

Lemma run_bind_Raise {A B} (m : M A) (f : A → M B) s e s' :
  m s = (Raise e, s') → (m ≫= f) s = (Raise e, s').
Proof. intros H. by rewrite run_bind, H. Qed.

Lemma run_deref r d s : heap s !! r = Some d → deref r s = (Ok d, s).
Proof. intros H. unfold deref. by rewrite H. Qed.

Lemma run_setitem_at r k v d s :
  heap s !! r = Some d →
  setitem_at r k v s = (Ok tt, State (<[r := dict_set k v d]> (heap s)) (diags s)).
Proof. intros H. unfold setitem_at. by rewrite (run_bind_Ok _ _ _ _ _ (run_deref _ _ _ H)). Qed.

Lemma run_getitem_at r k d v s :
  heap s !! r = Some d → dict_get k d = Some v → getitem_at r k s = (Ok v, s).
Proof.
  intros H Hk. unfold getitem_at.
  rewrite (run_bind_Ok _ _ _ _ _ (run_deref _ _ _ H)). unfold getitem. by rewrite Hk.
Qed.

Lemma run_state_eta s : State (heap s) (diags s) = s.
Proof. by destruct s. Qed.

Section assign.
Context (plugins_dict : pdict loc) (otherwise : M unit).

Lemma run_assign_hit X p v r d s :
  dict_get X plugins_dict = Some r → heap s !! r = Some d →
  assign_or plugins_dict otherwise X p v s
  = (Ok tt, State (<[r := dict_set p v d]> (heap s)) (diags s)).
Proof.
  intros HX Hr. unfold assign_or, try_except, getitem. rewrite HX.
  rewrite (run_bind_Ok _ _ _ r s) by done.
  by rewrite (run_setitem_at _ _ _ d).
Qed.

Lemma run_assign_miss X p v s :
  dict_get X plugins_dict = None →
  assign_or plugins_dict otherwise X p v s = otherwise s.
Proof. intros HX. unfold assign_or, try_except, getitem. by rewrite HX. Qed.

End assign.

(** ** The two merging loops *)

Lemma refs_valid_lookup h cfg X r :
  refs_valid h cfg → dict_get X cfg = Some r → is_Some (h !! r).
Proof.
  intros Hv HX%dict_get_Some_elem. apply lookup_lt_is_Some.
  unfold refs_valid in Hv. rewrite Forall_forall in Hv. apply Hv.
  apply list_elem_of_fmap. by exists (X, r).
Qed.

Lemma refs_valid_length h h' cfg :
  length h ≤ length h' → refs_valid h cfg → refs_valid h' cfg.
Proof.
  intros Hl. unfold refs_valid. rewrite !Forall_forall.
  intros Hv r Hr. specialize (Hv r Hr). lia.
Qed.

Section transfer.
Context (target : pdict loc) (flags : pdict bool) (prefer_default : bool).
Context (mk : string → string → diag).

Lemma run_inner_hit X r items : ∀ d s,
  dict_get X target = Some r → heap s !! r = Some d →
  transfer_inner target flags prefer_default mk X items s
  = (Ok tt, State (<[r := overlay flags prefer_default items d]> (heap s)) (diags s)).
Proof.
  induction items as [|[p v] items IH]; intros d s HX Hr.
  - cbn. rewrite list_insert_id by done. by rewrite run_state_eta.
  - unfold transfer_inner. cbn [for_each]. unfold overlay. cbn [foldl fst snd].
    assert (r < length (heap s)) as Hlt by by eapply lookup_lt_Some.
    case_bool_decide.
    + erewrite run_bind_Ok; [|by eapply run_assign_hit].
      fold (transfer_inner target flags prefer_default mk X items).
      erewrite IH; [|done|by apply list_lookup_insert_eq].
      cbn [heap diags]. by rewrite list_insert_insert_eq.
    + erewrite run_bind_Ok; [|done].
      fold (transfer_inner target flags prefer_default mk X items). by erewrite IH.
Qed.

Lemma run_inner_miss X items : ∀ s,
  dict_get X target = None →
  ∃ lg, transfer_inner target flags prefer_default mk X items s = (Ok tt, State (heap s) lg).
Proof.
  induction items as [|[p v] items IH]; intros s HX.
  - exists (diags s). cbn. by rewrite run_state_eta.
  - unfold transfer_inner. cbn [for_each]. case_bool_decide.
    + erewrite run_bind_Ok; [|by rewrite run_assign_miss].
      fold (transfer_inner target flags prefer_default mk X items).
      destruct (IH (State (heap s) (diags s ++ [mk X p])) HX) as [lg ->]. by exists lg.
    + erewrite run_bind_Ok; [|done].
      fold (transfer_inner target flags prefer_default mk X items). by apply IH.
Qed.

Lemma transfer_step_length h entry :
  length (transfer_step target flags prefer_default h entry) = length h.
Proof.
  unfold transfer_step. repeat case_match; try done. by rewrite length_insert.
Qed.

Lemma transfer_heap_length src : ∀ h,
  length (transfer_heap target flags prefer_default src h) = length h.
Proof.
  unfold transfer_heap. induction src as [|entry src IH]; intros h; [done|].
  cbn [foldl]. by rewrite IH, transfer_step_length.
Qed.

Lemma run_transfer src : ∀ s,
  refs_valid (heap s) src → refs_valid (heap s) target →
  ∃ lg, transfer target flags prefer_default mk src s
        = (Ok tt, State (transfer_heap target flags prefer_default src (heap s)) lg).
Proof.
  induction src as [|[X r0] src IH]; intros s Hsrc Htgt.
  - exists (diags s). cbn. by rewrite run_state_eta.
  - unfold transfer, _get_prioritized_parameters. cbn [for_each].
    unfold refs_valid in Hsrc. rewrite fmap_cons, Forall_cons in Hsrc.
    destruct Hsrc as [Hr0 Hsrc]. cbn [snd] in Hr0.
    apply lookup_lt_is_Some in Hr0 as [items Hitems].
    rewrite run_bind. rewrite (run_bind_Ok _ _ _ _ _ (run_deref _ _ _ Hitems)).
    fold (transfer_inner target flags prefer_default mk X items).
    assert (∃ lg, transfer_inner target flags prefer_default mk X items s
                  = (Ok tt, State (transfer_step target flags prefer_default (heap s) (X, r0)) lg))
      as [lg1 ->].
    { unfold transfer_step. cbn [fst snd].
      destruct (dict_get X target) as [r|] eqn:HX.
      - destruct (refs_valid_lookup _ _ _ _ Htgt HX) as [d Hd]. rewrite Hitems, Hd.
        exists (diags s). by apply run_inner_hit.
      - by apply run_inner_miss. }
    set (s1 := State _ lg1).
    destruct (IH s1) as [lg Hrun].
    { eapply refs_valid_length; [|done]. cbn. by rewrite transfer_step_length. }
    { eapply refs_valid_length; [|done]. cbn. by rewrite transfer_step_length. }
    exists lg. unfold transfer, _get_prioritized_parameters in Hrun. by rewrite Hrun.
Qed.

End transfer.

(** ** What the loops leave in the store *)

Section overlay.
Context (flags : pdict bool) (prefer_default : bool).

Lemma overlay_cons p v items d :
  overlay flags prefer_default ((p, v) :: items) d
  = overlay flags prefer_default items
      (if bool_decide (taken flags prefer_default p) then dict_set p v d else d).
Proof. done. Qed.

Lemma overlay_untouched p items : ∀ d,
  (∀ v, (p, v) ∈ items → ¬ taken flags prefer_default p) →
  dict_get p (overlay flags prefer_default items d) = dict_get p d.
Proof.
  induction items as [|[p0 v0] items IH]; intros d Hp; [done|].
  rewrite overlay_cons, IH.
  - case_bool_decide as Ht; [|done]. apply dict_get_set_ne. intros ->.
    apply (Hp v0); [left|done].
  - intros v Hin. apply (Hp v). by right.
Qed.

Lemma overlay_taken p v items : ∀ d,
  dict_wf items → dict_get p items = Some v → taken flags prefer_default p →
  dict_get p (overlay flags prefer_default items d) = Some v.
Proof.
  induction items as [|[p0 v0] items IH]; intros d Hwf Hget Ht; [done|].
  unfold dict_wf, dict_keys in Hwf. rewrite fmap_cons, NoDup_cons in Hwf.
  destruct Hwf as [Hp0 Hwf]. cbn [dict_get] in Hget. rewrite overlay_cons.
  destruct (decide (p = p0)) as [->|Hne].
  - simplify_eq. rewrite bool_decide_eq_true_2 by done.
    rewrite overlay_untouched; [apply dict_get_set_eq|].
    intros v' Hin. exfalso. apply Hp0. apply list_elem_of_fmap. by exists (p0, v').
  - by apply IH.
Qed.

Lemma overlay_none items : ∀ d,
  (∀ p, p ∈ dict_keys items → ¬ taken flags prefer_default p) →
  overlay flags prefer_default items d = d.
Proof.
  induction items as [|[p0 v0] items IH]; intros d Hp; [done|].
  rewrite overlay_cons, bool_decide_eq_false_2.
  - apply IH. intros p Hin. apply Hp. unfold dict_keys. rewrite fmap_cons. by right.
  - apply Hp. unfold dict_keys. rewrite fmap_cons. left.
Qed.

Lemma overlay_keys (P : string → Prop) items : ∀ d,
  Forall P (dict_keys items) → Forall P (dict_keys d) →
  Forall P (dict_keys (overlay flags prefer_default items d)).
Proof.
  induction items as [|[p0 v0] items IH]; intros d Hi Hd; [done|].
  unfold dict_keys in Hi. rewrite fmap_cons, Forall_cons in Hi. destruct Hi as [Hp0 Hi].
  rewrite overlay_cons. apply IH; [done|]. case_bool_decide; [|done].
  rewrite dict_keys_set. case_decide; [done|]. apply Forall_app. split; [done|].
  by apply Forall_singleton.
Qed.

End overlay.

Section transfer_facts.
Context (target : pdict loc) (flags : pdict bool) (prefer_default : bool).

Lemma run_cons entry src h :
  transfer_heap target flags prefer_default (entry :: src) h
  = transfer_heap target flags prefer_default src
      (transfer_step target flags prefer_default h entry).
Proof. done. Qed.

Lemma step_other h Y r0 ref :
  dict_get Y target ≠ Some ref →
  transfer_step target flags prefer_default h (Y, r0) !! ref = h !! ref.
Proof.
  intros Hne. unfold transfer_step. cbn [fst snd].
  destruct (dict_get Y target) as [r|]; [|done].
  destruct (h !! r0); [|done]. destruct (h !! r); [|done].
  apply list_lookup_insert_ne. congruence.
Qed.

Lemma step_outside h entry ref :
  ref ∉ target.*2 → transfer_step target flags prefer_default h entry !! ref = h !! ref.
Proof.
  intros Hout. destruct entry as [Y r0]. apply step_other.
  intros Hin%dict_get_Some_elem. apply Hout. apply list_elem_of_fmap. by exists (Y, ref).
Qed.

(** Objects that the target mapping does not name are left alone. *)
Lemma run_outside src : ∀ h ref,
  ref ∉ target.*2 → transfer_heap target flags prefer_default src h !! ref = h !! ref.
Proof.
  induction src as [|entry src IH]; intros h ref Hout; [done|].
  by rewrite run_cons, IH, step_outside.
Qed.

(** A parameter that the merger does not take keeps its value everywhere. *)
Lemma run_not_taken p src : ∀ h ref,
  ¬ taken flags prefer_default p →
  transfer_heap target flags prefer_default src h !! ref ≫= dict_get p = h !! ref ≫= dict_get p.
Proof.
  induction src as [|[Y r0] src IH]; intros h ref Hp; [done|].
  rewrite run_cons, IH by done. unfold transfer_step. cbn [fst snd].
  destruct (dict_get Y target) as [r|]; [|done].
  destruct (h !! r0) as [items|]; [|done].
  destruct (h !! r) as [d|] eqn:Hd; [|done].
  destruct (decide (r = ref)) as [->|Hne].
  - rewrite list_lookup_insert_eq by by eapply lookup_lt_Some.
    rewrite Hd. cbn. by apply overlay_untouched.
  - by rewrite list_lookup_insert_ne.
Qed.

(** A parameter that no source dict has keeps its value everywhere. *)
Lemma run_absent p (S : loc → Prop) src : ∀ h,
  (∀ r, r ∈ src.*2 → S r) → (∀ r, r ∈ target.*2 → S r) →
  (∀ r d, S r → h !! r = Some d → dict_get p d = None) →
  ∀ r d, S r → transfer_heap target flags prefer_default src h !! r = Some d →
         dict_get p d = None.
Proof.
  induction src as [|[Y r0] src IH]; intros h Hsrc Htgt Hh; [done|].
  rewrite run_cons. apply IH.
  - intros r Hr. apply Hsrc. rewrite fmap_cons. by right.
  - done.
  - intros r d Hr. unfold transfer_step. cbn [fst snd].
    destruct (dict_get Y target) as [r1|] eqn:HY; [|by apply Hh].
    destruct (h !! r0) as [items|] eqn:Hitems; [|by apply Hh].
    destruct (h !! r1) as [d1|] eqn:Hd1; [|by apply Hh].
    destruct (decide (r1 = r)) as [->|Hne].
    + rewrite list_lookup_insert_eq by by eapply lookup_lt_Some.
      intros [= <-]. rewrite overlay_untouched.
      * by eapply Hh.
      * intros v Hin. exfalso.
        assert (dict_get p items = None) as Hn.
        { eapply Hh; [|done]. apply Hsrc. rewrite fmap_cons. left. }
        apply dict_get_None in Hn. apply Hn. apply list_elem_of_fmap. by exists (p, v).
    + rewrite list_lookup_insert_ne by done. by apply Hh.
Qed.

(** Nothing is taken: the store is left as it is. *)
Lemma run_none src : ∀ h,
  (∀ r items p, r ∈ src.*2 → h !! r = Some items → p ∈ dict_keys items →
                ¬ taken flags prefer_default p) →
  transfer_heap target flags prefer_default src h = h.
Proof.
  induction src as [|[Y r0] src IH]; intros h Hnone; [done|].
  rewrite run_cons.
  assert (transfer_step target flags prefer_default h (Y, r0) = h) as ->.
  { unfold transfer_step. cbn [fst snd].
    destruct (dict_get Y target) as [r|]; [|done].
    destruct (h !! r0) as [items|] eqn:Hitems; [|done].
    destruct (h !! r) as [d|] eqn:Hd; [|done].
    rewrite overlay_none; [by apply list_insert_id|].
    intros p Hp. apply (Hnone r0 items p); [|done..]. rewrite fmap_cons. left. }
  apply IH. intros r items p Hr. apply Hnone. rewrite fmap_cons. by right.
Qed.

Lemma run_miss X ref src : ∀ h,
  NoDup target.*2 → dict_get X src = None → dict_get X target = Some ref →
  transfer_heap target flags prefer_default src h !! ref = h !! ref.
Proof.
  induction src as [|[Y r0] src IH]; intros h Hnd Hsrc Htgt; [done|].
  cbn [dict_get] in Hsrc. case_decide as HXY; [done|].
  rewrite run_cons, IH by done. apply step_other.
  intros HY. apply HXY. symmetry. by eapply dict_get_inj.
Qed.

(** The parameter dict of a plugin that both mappings name receives the
    parameters that the merger takes from the source. *)
Lemma run_hit X r ref src : ∀ h items d,
  dict_wf src → NoDup target.*2 → (∀ r', r' ∈ src.*2 → r' ∉ target.*2) →
  dict_get X src = Some r → dict_get X target = Some ref →
  h !! r = Some items → h !! ref = Some d →
  transfer_heap target flags prefer_default src h !! ref
  = Some (overlay flags prefer_default items d).
Proof.
  induction src as [|[Y r0] src IH]; intros h items d Hwf Hnd Hdisj Hsrc Htgt Hr Href;
    [done|].
  unfold dict_wf, dict_keys in Hwf. rewrite fmap_cons, NoDup_cons in Hwf.
  destruct Hwf as [HY Hwf]. cbn [dict_get] in Hsrc. rewrite run_cons.
  destruct (decide (X = Y)) as [->|HXY].
  - simplify_eq. rewrite (run_miss Y ref); [|done| |done].
    + unfold transfer_step. cbn [fst snd]. rewrite Htgt, Hr, Href.
      apply list_lookup_insert_eq. by eapply lookup_lt_Some.
    + by apply dict_get_None.
  - apply IH; try done.
    + intros r' Hr'. apply Hdisj. rewrite fmap_cons. by right.
    + rewrite step_outside; [done|]. apply Hdisj. rewrite fmap_cons. right.
      apply dict_get_Some_elem in Hsrc. apply list_elem_of_fmap. by exists (X, r).
    + rewrite step_other; [done|]. intros HYt. apply HXY. by eapply dict_get_inj.
Qed.

(** Keys come from nowhere else. *)
Lemma run_keys (P : string → Prop) src : ∀ h,
  Forall (λ d, Forall P (dict_keys d)) h →
  Forall (λ d, Forall P (dict_keys d)) (transfer_heap target flags prefer_default src h).
Proof.
  induction src as [|[Y r0] src IH]; intros h Hh; [done|].
  rewrite run_cons. apply IH. unfold transfer_step. cbn [fst snd].
  destruct (dict_get Y target) as [r|]; [|done].
  destruct (h !! r0) as [items|] eqn:Hitems; [|done].
  destruct (h !! r) as [d|] eqn:Hd; [|done].
  apply Forall_insert; [done|].
  rewrite Forall_lookup in Hh. apply overlay_keys; [by apply (Hh r0)|by apply (Hh r)].
Qed.

End transfer_facts.

(** ** What one loop logs *)

Section transfer_diags.
Context (target : pdict loc) (flags : pdict bool) (prefer_default : bool).
Context (mk : string → string → diag).

Lemma run_inner_miss_diags X items : ∀ s,
  dict_get X target = None →
  transfer_inner target flags prefer_default mk X items s
  = (Ok tt, State (heap s) (diags s ++ skipped_params flags prefer_default mk X items)).
Proof.
  induction items as [|[p v] items IH]; intros s HX.
  - cbn. by rewrite app_nil_r, run_state_eta.
  - unfold transfer_inner, skipped_params. cbn [for_each omap list_omap fst].
    fold (skipped_params flags prefer_default mk X items). cbn zeta.
    destruct (bool_decide (default false (dict_get p flags) = prefer_default)).
    + erewrite run_bind_Ok; [|by rewrite run_assign_miss].
      fold (transfer_inner target flags prefer_default mk X items).
      rewrite IH by done. cbn [heap diags]. by rewrite <-app_assoc.
    + erewrite run_bind_Ok; [|done].
      fold (transfer_inner target flags prefer_default mk X items). by apply IH.
Qed.

Lemma skipped_ext known h h' src :
  (∀ r, r ∈ src.*2 → h' !! r = h !! r) →
  skipped known flags prefer_default mk h' src
  = skipped known flags prefer_default mk h src.
Proof.
  unfold skipped. induction src as [|[X r] src IH]; intros Hsame; [done|].
  cbn [mbind list_bind fst snd]. rewrite (Hsame r) by (rewrite fmap_cons; left).
  f_equal. apply IH. intros r' Hr'. apply Hsame. rewrite fmap_cons. by right.
Qed.

(** The loop logs one diagnostic for each parameter that it takes from a
    plugin that the target does not name, and nothing else. *)
Lemma run_transfer_diags src : ∀ s,
  refs_valid (heap s) src → refs_valid (heap s) target →
  (∀ r, r ∈ src.*2 → r ∉ target.*2) →
  transfer target flags prefer_default mk src s
  = (Ok tt,
     State (transfer_heap target flags prefer_default src (heap s))
           (diags s ++ skipped (λ X, bool_decide (is_Some (dict_get X target)))
                               flags prefer_default mk (heap s) src)).
Proof.
  induction src as [|[X r0] src IH]; intros s Hsrc Htgt Hdisj.
  - cbn. by rewrite app_nil_r, run_state_eta.
  - unfold transfer, _get_prioritized_parameters in IH |- *. cbn [for_each].
    pose proof Hsrc as Hsrc0.
    unfold refs_valid in Hsrc. rewrite fmap_cons, Forall_cons in Hsrc.
    destruct Hsrc as [Hr0 Hsrc]. cbn [snd] in Hr0.
    apply lookup_lt_is_Some in Hr0 as [items Hitems].
    rewrite run_bind. rewrite (run_bind_Ok _ _ _ _ _ (run_deref _ _ _ Hitems)).
    fold (transfer_inner target flags prefer_default mk X items).
    unfold skipped. cbn [mbind list_bind fst snd]. rewrite Hitems. cbn [default].
    fold (skipped (λ X, bool_decide (is_Some (dict_get X target)))
            flags prefer_default mk (heap s) src).
    assert (transfer_inner target flags prefer_default mk X items s
            = (Ok tt, State (transfer_step target flags prefer_default (heap s) (X, r0))
                 (diags s ++ if bool_decide (is_Some (dict_get X target)) then []
                             else skipped_params flags prefer_default mk X items)))
      as ->.
    { unfold transfer_step. cbn [fst snd].
      destruct (dict_get X target) as [r|] eqn:HX.
      - destruct (refs_valid_lookup _ _ _ _ Htgt HX) as [d Hd]. rewrite Hitems, Hd.
        rewrite bool_decide_eq_true_2 by by eexists. rewrite app_nil_r.
        by apply run_inner_hit.
      - rewrite bool_decide_eq_false_2 by by intros [? ?].
        by apply run_inner_miss_diags. }
    set (s1 := State _ _).
    rewrite (IH s1); subst s1; cbn [heap diags].
    + rewrite <-app_assoc. do 3 f_equal. unfold id. f_equal. apply skipped_ext.
      intros r Hr. apply step_outside, Hdisj. rewrite fmap_cons. by right.
    + eapply refs_valid_length; [|done]. by rewrite transfer_step_length.
    + eapply refs_valid_length; [|done]. by rewrite transfer_step_length.
    + intros r Hr. apply Hdisj. rewrite fmap_cons. by right.
Qed.

End transfer_diags.

(** ** The baseline mapping *)

Lemma run_remove_key r key d s :
  heap s !! r = Some d → is_Some (dict_get key d) →
  _remove_key r key s
  = (Ok (length (heap s)), State (heap s ++ [dict_del key d]) (diags s)).
Proof.
  intros Hr [v Hv]. unfold _remove_key, dict_copy.
  rewrite run_bind. rewrite (run_bind_Ok _ _ _ _ _ (run_deref _ _ _ Hr)).
  unfold alloc. unfold pop_at. rewrite run_bind, run_bind. unfold deref at 1.
  cbn [heap diags]. rewrite list_lookup_middle by done.
  unfold dict_pop. rewrite Hv. rewrite run_bind. unfold store at 1. cbn [heap diags].
  rewrite insert_app_r_alt by done. by rewrite Nat.sub_diag.
Qed.

Lemma baseline_view_app h ext bs recs :
  baseline_view h bs recs → baseline_view (h ++ ext) bs recs.
Proof.
  unfold baseline_view. intros Hv. eapply Forall2_impl; [done|].
  intros b rec [Hb Hname]. split; [|done].
  rewrite lookup_app_l; [done|]. by eapply lookup_lt_Some.
Qed.

Lemma run_baseline recs : ∀ bs acc s,
  baseline_view (heap s) bs recs →
  baseline_plugins_dict_from bs acc s
  = (Ok (bdict_of recs.*1 (length (heap s)) acc),
     State (heap s ++ (dict_del "name" <$> recs.*2)) (diags s)).
Proof.
  induction recs as [|[nm d] recs IH]; intros bs acc s Hview.
  - apply Forall2_nil_inv_r in Hview as ->. cbn. rewrite app_nil_r.
    by rewrite run_state_eta.
  - apply Forall2_cons_inv_r in Hview as (b & bs' & [Hb Hname] & Hview & ->).
    cbn [fst snd] in Hb, Hname. cbn [baseline_plugins_dict_from].
    rewrite (run_bind_Ok _ _ _ _ _ (run_getitem_at _ _ _ _ _ Hb Hname)).
    cbn [as_plugin_name]. rewrite (run_bind_Ok _ _ _ nm s) by done.
    erewrite run_bind_Ok; [|by apply run_remove_key].
    rewrite IH; cbn [heap diags]; [|by apply baseline_view_app].
    rewrite !fmap_cons. cbn [fst snd bdict_of].
    rewrite length_app, Nat.add_1_r, <-app_assoc. done.
Qed.

Lemma bdict_of_snoc names nm : ∀ n acc,
  bdict_of (names ++ [nm]) n acc = dict_set nm (n + length names) (bdict_of names n acc).
Proof.
  induction names as [|a names IH]; intros n acc; cbn [bdict_of app length].
  - by rewrite Nat.add_0_r.
  - rewrite IH. by rewrite Nat.add_succ_r.
Qed.

Lemma bdict_of_wf names : ∀ n acc, dict_wf acc → dict_wf (bdict_of names n acc).
Proof.
  induction names as [|a names IH]; intros n acc Hacc; [done|].
  cbn [bdict_of]. by apply IH, dict_wf_set.
Qed.

Lemma bdict_of_values names n :
  NoDup (bdict_of names n []).*2 ∧
  Forall (λ r, n ≤ r < n + length names) (bdict_of names n []).*2.
Proof.
  induction names as [|nm names [IHnd IHr]] using rev_ind.
  - split; [apply NoDup_nil_2|apply Forall_nil_2].
  - rewrite bdict_of_snoc, length_app. cbn [length]. split.
    + apply dict_values_set_NoDup; [done|]. intros Hin.
      rewrite Forall_forall in IHr. apply IHr in Hin. lia.
    + rewrite Forall_forall. intros r Hr%dict_values_set.
      apply elem_of_cons in Hr as [->|Hr]; [lia|].
      rewrite Forall_forall in IHr. apply IHr in Hr. lia.
Qed.

Lemma bdict_of_get (recs : pdict (pdict pyval)) n X :
  match dict_get X (reverse recs) with
  | Some d => ∃ i, dict_get X (bdict_of recs.*1 n []) = Some (n + i) ∧
                   recs !! i = Some (X, d)
  | None => dict_get X (bdict_of recs.*1 n []) = None
  end.
Proof.
  induction recs as [|[nm d0] recs IH] using rev_ind; [done|].
  rewrite reverse_snoc, fmap_app, fmap_cons, fmap_nil. cbn [fst dict_get].
  rewrite bdict_of_snoc, length_fmap.
  destruct (decide (X = nm)) as [->|Hne].
  - exists (length recs). split; [apply dict_get_set_eq|]. by apply list_lookup_middle.
  - rewrite dict_get_set_ne by done. destruct (dict_get X (reverse recs)); [|done].
    destruct IH as (i & Hget & Hi). exists i. split; [done|].
    by apply lookup_app_l_Some.
Qed.

(** The baseline mapping names, for each plugin of the baseline, a new
    object that holds its parameters, and nothing else. *)
Lemma baseline_built (recs : pdict (pdict pyval)) (h : list (pdict pyval)) X :
  match baseline_params recs X with
  | Some ps => ∃ r, dict_get X (bdict_of recs.*1 (length h) []) = Some r ∧
                    length h ≤ r ∧
                    (h ++ (dict_del "name" <$> recs.*2)) !! r = Some ps
  | None => dict_get X (bdict_of recs.*1 (length h) []) = None
  end.
Proof.
  unfold baseline_params. pose proof (bdict_of_get recs (length h) X) as Hget.
  destruct (dict_get X (reverse recs)) as [d|]; [|done].
  destruct Hget as (i & Hget & Hi). cbn. exists (length h + i).
  split_and!; [done|lia|]. rewrite lookup_app_r by lia.
  replace (length h + i - length h) with i by lia.
  by rewrite !list_lookup_fmap, Hi.
Qed.

Lemma baseline_built_inv (recs : pdict (pdict pyval)) (h : list (pdict pyval)) X r :
  dict_get X (bdict_of recs.*1 (length h) []) = Some r →
  ∃ ps, baseline_params recs X = Some ps ∧ length h ≤ r ∧
        (h ++ (dict_del "name" <$> recs.*2)) !! r = Some ps.
Proof.
  intros Hr. pose proof (baseline_built recs h X) as Hb.
  destruct (baseline_params recs X) as [ps|]; [|congruence].
  destruct Hb as (r' & Hr' & ? & ?). exists ps. by simplify_eq.
Qed.

(** ** The resolved configuration *)

Section merger_facts.
Context (get_disabled_plugins : Args → list string).
Implicit Types (args : Args) (s : state) (recs : pdict (pdict pyval)).

Lemma Forall_sublist_of {A} (P : A → Prop) (l k : list A) :
  l `sublist_of` k → Forall P k → Forall P l.
Proof.
  rewrite !Forall_forall. intros Hsub Hk x Hx. apply Hk. by eapply elem_of_sublist.
Qed.

Lemma filter_all {A} (P : A → Prop) `{!∀ x, Decision (P x)} (l : list A) :
  (∀ x, P x) → filter P l = l.
Proof.
  intros HP. induction l as [|x l IH]; [done|].
  by rewrite filter_cons_True, IH.
Qed.

Lemma bdict_refs_valid recs (h : list (pdict pyval)) :
  refs_valid (with_baseline h recs) (bdict_of recs.*1 (length h) []).
Proof.
  unfold refs_valid, with_baseline.
  destruct (bdict_of_values recs.*1 (length h)) as [_ Hr].
  eapply Forall_impl; [done|]. intros r. cbn beta.
  rewrite length_app, !length_fmap. lia.
Qed.

Lemma seeded_values args recs h :
  NoDup (seeded get_disabled_plugins args recs h).*2 ∧
  Forall (λ r, length h ≤ r) (seeded get_disabled_plugins args recs h).*2.
Proof.
  destruct (bdict_of_values recs.*1 (length h)) as [Hnd Hr].
  assert ((seeded get_disabled_plugins args recs h).*2
            `sublist_of` (bdict_of recs.*1 (length h) []).*2) as Hsub.
  { apply fmap_sublist, sublist_filter. }
  split; [by eapply sublist_NoDup|].
  eapply Forall_impl; [by eapply Forall_sublist_of|]. intros r. cbn beta. lia.
Qed.

Lemma seeded_refs_valid args recs h :
  refs_valid (with_baseline h recs) (seeded get_disabled_plugins args recs h).
Proof.
  unfold refs_valid. eapply Forall_sublist_of; [|apply bdict_refs_valid].
  apply fmap_sublist, sublist_filter.
Qed.

Lemma seeded_get args recs h X :
  dict_get X (seeded get_disabled_plugins args recs h)
  = if decide (X ∈ get_disabled_plugins args) then None
    else dict_get X (bdict_of recs.*1 (length h) []).
Proof.
  unfold seeded.
  edestruct (dict_get_filter_key (V:=loc)
               (λ entry, entry.1 ∉ get_disabled_plugins args)
               (λ k, k ∉ get_disabled_plugins args) X) as [Hin Hout]; [done|].
  case_decide; [by apply Hout; auto|by apply Hin].
Qed.

Lemma bdict_of_elem_keys names X : ∀ n acc,
  X ∈ dict_keys (bdict_of names n acc) ↔ X ∈ dict_keys acc ∨ X ∈ names.
Proof.
  induction names as [|nm names IH]; intros n acc; cbn [bdict_of].
  - rewrite elem_of_nil. tauto.
  - rewrite IH, dict_keys_set, elem_of_cons. case_decide.
    + split; [tauto|]. intros [?|[->|?]]; auto.
    + rewrite elem_of_app, list_elem_of_singleton. tauto.
Qed.

Lemma seeded_is_Some args recs (h : list (pdict pyval)) X :
  is_Some (dict_get X (seeded get_disabled_plugins args recs h))
  ↔ X ∈ recs.*1 ∧ X ∉ get_disabled_plugins args.
Proof.
  rewrite seeded_get. case_decide.
  - split; [by intros [? ?]|tauto].
  - rewrite dict_get_is_Some, bdict_of_elem_keys. unfold dict_keys.
    rewrite fmap_nil, elem_of_nil. tauto.
Qed.

Lemma with_baseline_old h recs r d :
  h !! r = Some d → with_baseline h recs !! r = Some d.
Proof. intros Hr. unfold with_baseline. by apply lookup_app_l_Some. Qed.

(** The first context: the command line's mapping, with the parameters
    taken from the baseline written into its own dict objects. *)
Lemma resolved_use_all bs recs args s :
  use_all_plugins args = true →
  baseline_view (heap s) bs recs →
  refs_valid (heap s) (plugins args) →
  ∃ lg, resolved_plugins_dict get_disabled_plugins bs args s
        = (Ok (plugins args),
           State (transfer_heap (plugins args) (is_using_default_value args) true
                    (bdict_of recs.*1 (length (heap s)) [])
                    (with_baseline (heap s) recs)) lg).
Proof.
  intros Hall Hview Hvalid. unfold resolved_plugins_dict.
  rewrite (run_bind_Ok _ _ _ _ _ (run_baseline _ _ _ _ Hview)). rewrite Hall.
  set (mk := λ plugin_name (_ : string),
         LogWarning ("Baseline contains plugin " +:+ plugin_name
                     +:+ " which is not in all plugins! Ignoring...")).
  destruct (run_transfer (plugins args) (is_using_default_value args) true mk
              (bdict_of recs.*1 (length (heap s)) [])
              (State (with_baseline (heap s) recs) (diags s))) as [lg Hrun].
  { apply bdict_refs_valid. }
  { eapply refs_valid_length; [|done]. unfold with_baseline. cbn.
    rewrite length_app. lia. }
  exists lg. unfold transfer in Hrun. erewrite run_bind_Ok; [|exact Hrun]. done.
Qed.

(** The second context: the baseline's mapping without the disabled
    plugins, with the parameters taken from the command line written into
    the new dict objects. *)
Lemma resolved_baseline_only bs recs args s :
  use_all_plugins args = false →
  baseline_view (heap s) bs recs →
  refs_valid (heap s) (plugins args) →
  ∃ lg, resolved_plugins_dict get_disabled_plugins bs args s
        = (Ok (seeded get_disabled_plugins args recs (heap s)),
           State (transfer_heap (seeded get_disabled_plugins args recs (heap s))
                    (is_using_default_value args) false
                    (plugins args) (with_baseline (heap s) recs)) lg).
Proof.
  intros Hall Hview Hvalid. unfold resolved_plugins_dict.
  rewrite (run_bind_Ok _ _ _ _ _ (run_baseline _ _ _ _ Hview)). rewrite Hall.
  rewrite dict_comprehension_wf
    by (apply dict_wf_filter, bdict_of_wf, NoDup_nil_2).
  fold (seeded get_disabled_plugins args recs (heap s)).
  set (mk := λ plugin_name param_name,
         LogDebug ("--" +:+ replace_underscore param_name
                   +:+ " specified, but " +:+ plugin_name
                   +:+ " not configured! Ignoring...")).
  destruct (run_transfer (seeded get_disabled_plugins args recs (heap s))
              (is_using_default_value args)
              false mk (plugins args)
              (State (with_baseline (heap s) recs) (diags s))) as [lg Hrun].
  { eapply refs_valid_length; [|done]. unfold with_baseline. cbn.
    rewrite length_app. lia. }
  { apply seeded_refs_valid. }
  exists lg. unfold transfer in Hrun. erewrite run_bind_Ok; [|exact Hrun]. done.
Qed.

Lemma baseline_params_wf recs X ps :
  records_wf recs → baseline_params recs X = Some ps → dict_wf ps.
Proof.
  unfold records_wf, baseline_params. rewrite Forall_forall. intros Hwf Hps.
  destruct (dict_get X (reverse recs)) as [d|] eqn:Hd; [|done].
  cbn in Hps. simplify_eq. apply dict_wf_del.
  apply dict_get_Some_elem in Hd. rewrite elem_of_reverse in Hd. by apply (Hwf (X, d)).
Qed.

Lemma args_wf_lookup h args X l d :
  args_wf h args → dict_get X (plugins args) = Some l → h !! l = Some d → dict_wf d.
Proof.
  intros [_ Hwf] HX%dict_get_Some_elem Hl. rewrite Forall_forall in Hwf.
  apply (Hwf l); [|done]. apply list_elem_of_fmap. by exists (X, l).
Qed.

(** In the first context the parameter dict of a command-line plugin ends
    as the baseline's parameters, where taken, written over it. *)
Lemma use_all_dict bs recs args s X l d :
  use_all_plugins args = true →
  baseline_view (heap s) bs recs →
  refs_valid (heap s) (plugins args) → NoDup (plugins args).*2 →
  dict_get X (plugins args) = Some l → heap s !! l = Some d →
  ∃ s', resolved_plugins_dict get_disabled_plugins bs args s = (Ok (plugins args), s') ∧
        heap s' !! l
        = Some (match baseline_params recs X with
                | Some ps => overlay (is_using_default_value args) true ps d
                | None => d
                end).
Proof.
  intros Hall Hview Hvalid Hnd HX Hl.
  destruct (resolved_use_all bs recs args s Hall Hview Hvalid) as [lg Hrun].
  eexists. split; [exact Hrun|]. cbn [heap].
  pose proof (baseline_built recs (heap s) X) as Hb.
  destruct (baseline_params recs X) as [ps|].
  - destruct Hb as (r & Hr & Hge & Hps).
    eapply run_hit; [apply bdict_of_wf, NoDup_nil_2|done| |done|done|done|].
    + intros r' Hr' Hin.
      destruct (bdict_of_values recs.*1 (length (heap s))) as [_ Hrange].
      rewrite Forall_forall in Hrange. apply Hrange in Hr'.
      unfold refs_valid in Hvalid. rewrite Forall_forall in Hvalid.
      apply Hvalid in Hin. lia.
    + by apply with_baseline_old.
  - rewrite (run_miss _ _ _ X l) by done. by apply with_baseline_old.
Qed.

(** In the second context the parameter dict of a baseline plugin ends as
    the command line's parameters, where taken, written over the
    baseline's. *)
Lemma baseline_only_dict bs recs args s X ps :
  use_all_plugins args = false →
  baseline_view (heap s) bs recs →
  refs_valid (heap s) (plugins args) → dict_wf (plugins args) →
  baseline_params recs X = Some ps → X ∉ get_disabled_plugins args →
  ∃ cfg s' r,
    resolved_plugins_dict get_disabled_plugins bs args s = (Ok cfg, s') ∧
    dict_get X cfg = Some r ∧
    heap s' !! r
    = Some (match dict_get X (plugins args) ≫= (heap s !!.) with
            | Some items => overlay (is_using_default_value args) false items ps
            | None => ps
            end).
Proof.
  intros Hall Hview Hvalid Hwf Hps Hen.
  destruct (resolved_baseline_only bs recs args s Hall Hview Hvalid) as [lg Hrun].
  pose proof (baseline_built recs (heap s) X) as Hb. rewrite Hps in Hb.
  destruct Hb as (r & Hr & Hge & Hr1).
  assert (dict_get X (seeded get_disabled_plugins args recs (heap s)) = Some r) as Hseed.
  { rewrite seeded_get. by rewrite decide_False. }
  destruct (seeded_values args recs (heap s)) as [Hnd Hrange].
  do 3 eexists. split_and!; [exact Hrun|exact Hseed|]. cbn [heap].
  destruct (dict_get X (plugins args)) as [l|] eqn:HX; cbn.
  - destruct (refs_valid_lookup _ _ _ _ Hvalid HX) as [items Hitems].
    rewrite Hitems. eapply run_hit; [done|done| |done|done| |done].
    + intros r' Hr' Hin. rewrite Forall_forall in Hrange. apply Hrange in Hin.
      unfold refs_valid in Hvalid. rewrite Forall_forall in Hvalid.
      apply Hvalid in Hr'. lia.
    + by apply with_baseline_old.
  - by rewrite (run_miss _ _ _ X r).
Qed.

(** *** Context A: the command line seeds the configuration *)

(** A parameter whose flag does not read "default" keeps, in the first
    context, the value of the command line for every plugin. *)
Lemma use_all_keeps bs recs args s p :
  use_all_plugins args = true →
  baseline_view (heap s) bs recs →
  refs_valid (heap s) (plugins args) →
  default false (dict_get p (is_using_default_value args)) = false →
  ∃ s', resolved_plugins_dict get_disabled_plugins bs args s = (Ok (plugins args), s') ∧
        ∀ X, param_of (plugins args) (heap s') X p = param_of (plugins args) (heap s) X p.
Proof.
  intros Hall Hview Hvalid Hflag.
  destruct (resolved_use_all bs recs args s Hall Hview Hvalid) as [lg Hrun].
  eexists. split; [exact Hrun|]. intros X. unfold param_of. cbn [heap].
  destruct (dict_get X (plugins args)) as [l|] eqn:HX; [|done]. cbn.
  destruct (refs_valid_lookup _ _ _ _ Hvalid HX) as [d Hd].
  etrans; [apply (run_not_taken _ _ _ p)|].
  - unfold taken. rewrite Hflag. done.
  - by rewrite (with_baseline_old _ recs _ _ Hd), Hd.
Qed.

(** C1. Context A precedence: with [use_all_plugins], for a plugin that
    both the command line and the baseline name, a parameter whose flag
    reads "default" resolves to the value that the baseline supplies, and a
    parameter whose flag reads "explicit" resolves to the value of the
    command line, whatever the baseline holds. *)
Theorem context_A_precedence bs recs args s X ps :
  use_all_plugins args = true →
  baseline_view (heap s) bs recs → records_wf recs →
  refs_valid (heap s) (plugins args) → NoDup (plugins args).*2 →
  is_Some (dict_get X (plugins args)) →
  baseline_params recs X = Some ps →
  ∃ s', resolved_plugins_dict get_disabled_plugins bs args s = (Ok (plugins args), s') ∧
    ∀ p,
      (dict_get p (is_using_default_value args) = Some true →
       ∀ v, dict_get p ps = Some v →
            param_of (plugins args) (heap s') X p = Some v) ∧
      (dict_get p (is_using_default_value args) = Some false →
       param_of (plugins args) (heap s') X p = param_of (plugins args) (heap s) X p).
Proof.
  intros Hall Hview Hwf Hvalid Hnd [l HX] Hps.
  destruct (refs_valid_lookup _ _ _ _ Hvalid HX) as [d Hd].
  destruct (use_all_dict bs recs args s X l d) as (s' & Hrun & Hl); try done.
  exists s'. split; [done|]. intros p. split.
  - intros Hflag v Hv. unfold param_of. rewrite HX. cbn. rewrite Hl, Hps. cbn.
    apply overlay_taken; [by eapply baseline_params_wf|done|].
    unfold taken. by rewrite Hflag.
  - intros Hflag.
    destruct (use_all_keeps bs recs args s p) as (s'' & Hrun' & Hkeep); try done.
    { by rewrite Hflag. }
    rewrite Hrun in Hrun'. by simplify_eq.
Qed.

(** *** Context B: the baseline seeds the configuration *)

(** A parameter whose flag does not read "default" resolves, in the second
    context, to the value that the command line supplies for the plugin. *)
Lemma baseline_only_takes bs recs args s X ps p v :
  use_all_plugins args = false →
  baseline_view (heap s) bs recs →
  refs_valid (heap s) (plugins args) → args_wf (heap s) args →
  baseline_params recs X = Some ps → X ∉ get_disabled_plugins args →
  default false (dict_get p (is_using_default_value args)) = false →
  param_of (plugins args) (heap s) X p = Some v →
  ∃ cfg s', resolved_plugins_dict get_disabled_plugins bs args s = (Ok cfg, s') ∧
            param_of cfg (heap s') X p = Some v.
Proof.
  intros Hall Hview Hvalid Hwf Hps Hen Hflag Hv.
  destruct (baseline_only_dict bs recs args s X ps) as (cfg & s' & r & Hrun & Hr & Hd);
    try done; [apply Hwf|].
  exists cfg, s'. split; [done|]. unfold param_of in Hv |- *. rewrite Hr. cbn.
  destruct (dict_get X (plugins args)) as [l|] eqn:HX; [|done]. cbn in Hv, Hd.
  destruct (heap s !! l) as [items|] eqn:Hitems; [|done]. cbn in Hv.
  rewrite Hd. cbn. apply overlay_taken; [by eapply args_wf_lookup|done|].
  unfold taken. by rewrite Hflag.
Qed.

(** A parameter whose flag reads "default" resolves, in the second context,
    to what the baseline gives. *)
Lemma baseline_only_keeps bs recs args s X ps p :
  use_all_plugins args = false →
  baseline_view (heap s) bs recs →
  refs_valid (heap s) (plugins args) → dict_wf (plugins args) →
  baseline_params recs X = Some ps → X ∉ get_disabled_plugins args →
  dict_get p (is_using_default_value args) = Some true →
  ∃ cfg s', resolved_plugins_dict get_disabled_plugins bs args s = (Ok cfg, s') ∧
            param_of cfg (heap s') X p = dict_get p ps.
Proof.
  intros Hall Hview Hvalid Hwf Hps Hen Hflag.
  destruct (baseline_only_dict bs recs args s X ps) as (cfg & s' & r & Hrun & Hr & Hd);
    try done.
  exists cfg, s'. split; [done|]. unfold param_of. rewrite Hr. cbn. rewrite Hd. cbn.
  destruct (dict_get X (plugins args) ≫= (heap s !!.)) as [items|]; [|done].
  apply overlay_untouched. intros _ _. unfold taken. by rewrite Hflag.
Qed.

(** C2. Context B precedence: without [use_all_plugins], for a plugin of
    the baseline-seeded set, a parameter whose flag reads "explicit"
    resolves to the value that the command line supplies for it, and a
    parameter whose flag reads "default" resolves to the baseline's value,
    or to none when the baseline has none. *)
Theorem context_B_precedence bs recs args s X ps :
  use_all_plugins args = false →
  baseline_view (heap s) bs recs →
  refs_valid (heap s) (plugins args) → args_wf (heap s) args →
  baseline_params recs X = Some ps → X ∉ get_disabled_plugins args →
  ∃ cfg s', resolved_plugins_dict get_disabled_plugins bs args s = (Ok cfg, s') ∧
    is_Some (dict_get X cfg) ∧
    ∀ p,
      (dict_get p (is_using_default_value args) = Some false →
       ∀ v, param_of (plugins args) (heap s) X p = Some v →
            param_of cfg (heap s') X p = Some v) ∧
      (dict_get p (is_using_default_value args) = Some true →
       param_of cfg (heap s') X p = dict_get p ps).
Proof.
  intros Hall Hview Hvalid Hwf Hps Hen.
  destruct (baseline_only_dict bs recs args s X ps) as (cfg & s' & r & Hrun & Hr & Hd);
    try done; [apply Hwf|].
  exists cfg, s'. split_and!; [done|by eexists|]. intros p. split.
  - intros Hflag v Hv.
    destruct (baseline_only_takes bs recs args s X ps p v)
      as (cfg' & s'' & Hrun' & Hres); try done.
    { by rewrite Hflag. }
    rewrite Hrun in Hrun'. by simplify_eq.
  - intros Hflag.
    destruct (baseline_only_keeps bs recs args s X ps p)
      as (cfg' & s'' & Hrun' & Hres); try done; [apply Hwf|].
    rewrite Hrun in Hrun'. by simplify_eq.
Qed.

Lemma dict_comprehension_keys {V} (items : pdict V) k :
  k ∈ dict_keys (dict_comprehension items) → k ∈ dict_keys items.
Proof.
  unfold dict_comprehension.
  assert (∀ acc : pdict V,
            k ∈ dict_keys (foldl (λ acc kv, dict_set kv.1 kv.2 acc) acc items) →
            k ∈ dict_keys acc ∨ k ∈ dict_keys items) as Hgen.
  { induction items as [|[k0 v0] items IH]; intros acc Hk; [by left|].
    cbn [foldl fst snd] in Hk. apply IH in Hk as [Hk|Hk].
    - rewrite dict_keys_set in Hk. unfold dict_keys. rewrite fmap_cons.
      case_decide; [by left|]. apply elem_of_app in Hk as [?|Hk]; [by left|].
      right. apply list_elem_of_singleton in Hk as ->. left.
    - right. unfold dict_keys. rewrite fmap_cons. by right. }
  intros Hk. apply Hgen in Hk as [Hk|Hk]; [|done]. by apply elem_of_nil in Hk.
Qed.

(** C5. Exclusion: without [use_all_plugins], a plugin of the disabled set
    is never a key of the resolved configuration, whatever the baseline
    holds and whatever the command line says of that plugin. *)
Theorem disabled_plugins_excluded bs args s cfg s' X :
  use_all_plugins args = false →
  resolved_plugins_dict get_disabled_plugins bs args s = (Ok cfg, s') →
  X ∈ get_disabled_plugins args →
  dict_get X cfg = None.
Proof.
  intros Hall Hrun Hdis. unfold resolved_plugins_dict in Hrun.
  rewrite run_bind in Hrun.
  destruct (baseline_plugins_dict_from bs [] s) as [[bdict|e] s1]; [|done].
  rewrite Hall, run_bind in Hrun.
  destruct (_get_prioritized_parameters _ _ _ _ _) as [[[]|e] s2]; [|done].
  unfold mret, M_ret in Hrun. simplify_eq. apply dict_get_None.
  intros Hin%dict_comprehension_keys. unfold dict_keys in Hin.
  apply list_elem_of_fmap in Hin as ([X' r] & -> & Hin).
  apply list_elem_of_filter in Hin as [Hen _]. done.
Qed.


(** *** The baseline as a configuration *)

Lemma config_of_baseline_keys recs :
  dict_keys (config_of_baseline recs) = dict_keys recs.
Proof.
  unfold dict_keys, config_of_baseline. rewrite <-list_fmap_compose.
  by apply list_fmap_ext.
Qed.

Lemma config_of_baseline_get recs X :
  dict_get X (config_of_baseline recs) = dict_del "name" <$> dict_get X recs.
Proof.
  induction recs as [|[nm d] recs IH]; [done|].
  unfold config_of_baseline. rewrite fmap_cons. cbn [dict_get fst snd].
  case_decide; [done|]. apply IH.
Qed.

Lemma dict_get_reverse {V} (d : pdict V) k :
  dict_wf d → dict_get k (reverse d) = dict_get k d.
Proof.
  intros Hwf.
  assert (dict_wf (reverse d)) as Hwf'.
  { unfold dict_wf, dict_keys. by rewrite fmap_reverse, reverse_Permutation. }
  destruct (dict_get k d) as [v|] eqn:Hd.
  - apply dict_get_elem; [done|]. apply elem_of_reverse. by apply dict_get_Some_elem.
  - apply dict_get_None. apply dict_get_None in Hd.
    unfold dict_keys in *. rewrite fmap_reverse, elem_of_reverse. done.
Qed.

Lemma baseline_params_config recs X :
  dict_wf (config_of_baseline recs) →
  baseline_params recs X = dict_get X (config_of_baseline recs).
Proof.
  intros Hwf. unfold baseline_params.
  rewrite config_of_baseline_get, dict_get_reverse; [done|].
  unfold dict_wf in *. by rewrite <-config_of_baseline_keys.
Qed.

Lemma bdict_of_imap names n :
  NoDup names → bdict_of names n [] = imap (λ i name, (name, n + i)) names.
Proof.
  induction names as [|nm names IH] using rev_ind; intros Hnd; [done|].
  apply NoDup_app in Hnd as (Hnd & Hnm & _).
  rewrite bdict_of_snoc, IH by done. rewrite imap_app. cbn [imap].
  rewrite Nat.add_0_r. apply dict_set_fresh.
  unfold dict_keys. rewrite fmap_imap.
  intros Hin. apply (Hnm nm); [|left].
  apply list_elem_of_lookup in Hin as [i Hi]. rewrite list_lookup_imap in Hi.
  destruct (names !! i) as [nm'|] eqn:Hnm'; [|done]. cbn in Hi. simplify_eq.
  by eapply list_elem_of_lookup_2.
Qed.

Lemma deep_with_baseline recs (h : list (pdict pyval)) :
  deep (with_baseline h recs) (imap (λ i name, (name, length h + i)) recs.*1)
  = Some (config_of_baseline recs).
Proof.
  unfold deep. apply mapM_Some_2. apply Forall2_same_length_lookup_2.
  - unfold config_of_baseline. by rewrite length_imap, !length_fmap.
  - intros i [nm r] [nm' d]. rewrite list_lookup_imap, list_lookup_fmap.
    unfold config_of_baseline. rewrite list_lookup_fmap.
    destruct (recs !! i) as [[nm0 d0]|] eqn:Hi; [|done]. cbn.
    intros ? ?. simplify_eq. unfold with_baseline.
    rewrite lookup_app_r by lia.
    replace (length h + i - length h) with i by lia.
    by rewrite !list_lookup_fmap, Hi.
Qed.

Lemma deep_equivalent h cfg cfg0 : deep h cfg = Some cfg0 → equivalent h cfg cfg0.
Proof.
  unfold deep. intros Hdeep%mapM_Some_1.
  induction Hdeep as [|[X r] [X0 ps] cfg cfg0 Hhd Htl [IHk IHp]].
  - split; [|done]. intros X. cbn. split; intros [? ?]; done.
  - cbn [fst snd] in Hhd. destruct (h !! r) as [d|] eqn:Hr; [|done].
    cbn in Hhd. simplify_eq. split.
    + intros X. cbn [dict_get]. case_decide; [|apply IHk]. split; by eexists.
    + intros X p. unfold param_of. cbn [dict_get]. case_decide.
      * cbn. by rewrite Hr.
      * apply IHp.
Qed.

(** Without [use_all_plugins], no override and nothing disabled, the merge
    gives back the configuration of the baseline, plugin for plugin in the
    same order. *)
Lemma round_trip_baseline_only bs recs args s :
  use_all_plugins args = false → get_disabled_plugins args = [] →
  baseline_view (heap s) bs recs → dict_wf (config_of_baseline recs) →
  refs_valid (heap s) (plugins args) → no_overrides (heap s) args →
  ∃ cfg s', resolved_plugins_dict get_disabled_plugins bs args s = (Ok cfg, s') ∧
            deep (heap s') cfg = Some (config_of_baseline recs).
Proof.
  intros Hall Hdis Hview Hwf Hvalid Hno.
  destruct (resolved_baseline_only bs recs args s Hall Hview Hvalid) as [lg Hrun].
  do 2 eexists. split; [exact Hrun|]. cbn [heap].
  assert (seeded get_disabled_plugins args recs (heap s)
          = imap (λ i name, (name, length (heap s) + i)) recs.*1) as ->.
  { unfold seeded. rewrite Hdis. rewrite <-bdict_of_imap.
    - apply filter_all. intros x. apply not_elem_of_nil.
    - unfold dict_wf in Hwf. by rewrite config_of_baseline_keys in Hwf. }
  rewrite run_none; [apply deep_with_baseline|].
  intros r items p Hr Hitems Hp. unfold taken.
  unfold refs_valid in Hvalid. rewrite Forall_forall in Hvalid.
  unfold with_baseline in Hitems. rewrite lookup_app_l in Hitems by auto.
  by rewrite (Hno r items p).
Qed.

Lemma overlay_all flags prefer_default (ps d : pdict pyval) p :
  dict_wf ps → (∀ q, q ∈ dict_keys ps → taken flags prefer_default q) →
  (∀ q, q ∈ dict_keys d → q ∈ dict_keys ps) →
  dict_get p (overlay flags prefer_default ps d) = dict_get p ps.
Proof.
  intros Hwf Htaken Hsub. destruct (dict_get p ps) as [v|] eqn:Hp.
  - apply overlay_taken; [done..|]. apply Htaken, dict_get_is_Some. by eexists.
  - rewrite overlay_untouched.
    + apply dict_get_None. intros Hin%Hsub. by apply dict_get_None in Hp.
    + intros v Hin. exfalso. apply dict_get_None in Hp. apply Hp.
      apply list_elem_of_fmap. by exists (p, v).
Qed.

(** With [use_all_plugins], the merge gives back the configuration of the
    baseline when the command line has its shape and overrides nothing. *)
Lemma round_trip_use_all bs recs args s :
  use_all_plugins args = true →
  baseline_view (heap s) bs recs → records_wf recs →
  dict_wf (config_of_baseline recs) →
  refs_valid (heap s) (plugins args) → NoDup (plugins args).*2 →
  same_shape (heap s) args (config_of_baseline recs) →
  config_defaults args (config_of_baseline recs) →
  ∃ cfg s', resolved_plugins_dict get_disabled_plugins bs args s = (Ok cfg, s') ∧
            equivalent (heap s') cfg (config_of_baseline recs).
Proof.
  intros Hall Hview Hrwf Hwf Hvalid Hnd [Hsame Hcov] Hdef.
  destruct (resolved_use_all bs recs args s Hall Hview Hvalid) as [lg Hrun].
  do 2 eexists. split; [exact Hrun|]. split; [done|]. intros X p.
  unfold param_of. destruct (dict_get X (plugins args)) as [l|] eqn:HX; cbn.
  - destruct (refs_valid_lookup _ _ _ _ Hvalid HX) as [d Hd].
    destruct (use_all_dict bs recs args s X l d) as (s' & Hrun' & Hl); try done.
    rewrite Hrun in Hrun'. simplify_eq. cbn [heap] in Hl. rewrite Hl. cbn.
    rewrite baseline_params_config by done.
    destruct (proj1 (Hsame X)) as [ps Hps]; [by rewrite HX|]. rewrite Hps. cbn.
    apply overlay_all.
    + eapply baseline_params_wf; [done|]. by rewrite baseline_params_config.
    + intros q Hq. unfold taken. by rewrite (Hdef X ps q).
    + intros q Hq. by eapply Hcov.
  - destruct (dict_get X (config_of_baseline recs)) as [ps|] eqn:Hps; [|done].
    destruct (proj2 (Hsame X)) as [l Hl]; [by rewrite Hps|]. congruence.
Qed.

(** C6, as amended. Round trip: merging the baseline that records a
    configuration, with a command line that overrides nothing, resolves to
    an equivalent configuration when [use_all_plugins] is off and nothing
    is disabled; when it is on, it does so provided that the command line
    names the plugins of the configuration and no parameter that the
    configuration lacks. *)
Theorem round_trip_identity bs recs args s cfg0 :
  config_of_baseline recs = cfg0 → dict_wf cfg0 → records_wf recs →
  baseline_view (heap s) bs recs →
  refs_valid (heap s) (plugins args) →
  (if use_all_plugins args
   then NoDup (plugins args).*2 ∧ same_shape (heap s) args cfg0 ∧
        config_defaults args cfg0
   else get_disabled_plugins args = [] ∧ no_overrides (heap s) args) →
  ∃ cfg s', resolved_plugins_dict get_disabled_plugins bs args s = (Ok cfg, s') ∧
            equivalent (heap s') cfg cfg0.
Proof.
  intros <- Hwf Hrwf Hview Hvalid Hctx. destruct (use_all_plugins args) eqn:Hall.
  - destruct Hctx as (Hnd & Hshape & Hdef). by apply round_trip_use_all.
  - destruct Hctx as [Hdis Hno].
    destruct (round_trip_baseline_only bs recs args s) as (cfg & s' & Hrun & Hdeep);
      try done.
    exists cfg, s'. split; [done|]. by apply deep_equivalent.
Qed.

(** *** What the merge leaves of the store *)

Lemma with_baseline_keys (P : string → Prop) bs recs h :
  baseline_view h bs recs →
  Forall (λ d, Forall P (dict_keys d)) h →
  Forall (λ d, Forall P (dict_keys d)) (with_baseline h recs).
Proof.
  intros Hview Hh. unfold with_baseline. apply Forall_app. split; [done|].
  rewrite Forall_fmap, Forall_fmap. rewrite Forall_lookup in Hh.
  induction Hview as [|b [nm d] bs recs [Hb _] _ IH]; constructor; [|done].
  cbn [fst snd compose] in *. specialize (Hh b d Hb). rewrite Forall_forall in Hh |- *.
  intros k Hk%dict_keys_del_subseteq. by apply Hh.
Qed.

(** Given a well-formed baseline, the merger resolves a configuration in
    either context: its parameter dicts are in the store, the objects that
    the caller passed and that the resolved mapping does not name are as
    they were, and no key of the store is new. *)
Lemma resolved_total bs recs args s :
  baseline_view (heap s) bs recs →
  refs_valid (heap s) (plugins args) →
  ∃ cfg s1,
    resolved_plugins_dict get_disabled_plugins bs args s = (Ok cfg, s1) ∧
    refs_valid (heap s1) cfg ∧
    (∀ r, r < length (heap s) → r ∉ cfg.*2 → heap s1 !! r = heap s !! r) ∧
    (use_all_plugins args = false → ∀ r, r ∈ cfg.*2 → length (heap s) ≤ r) ∧
    (∀ P : string → Prop,
       Forall (λ d, Forall P (dict_keys d)) (heap s) →
       Forall (λ d, Forall P (dict_keys d)) (heap s1)).
Proof.
  intros Hview Hvalid. destruct (use_all_plugins args) eqn:Hall.
  - destruct (resolved_use_all bs recs args s Hall Hview Hvalid) as [lg Hrun].
    do 2 eexists. split_and!; [exact Hrun|..]; cbn [heap].
    + eapply refs_valid_length; [|done]. rewrite transfer_heap_length.
      unfold with_baseline. rewrite length_app. lia.
    + intros r Hr Hout. rewrite run_outside by done.
      unfold with_baseline. by rewrite lookup_app_l.
    + done.
    + intros P HP. apply run_keys. by eapply with_baseline_keys.
  - destruct (resolved_baseline_only bs recs args s Hall Hview Hvalid) as [lg Hrun].
    do 2 eexists. split_and!; [exact Hrun|..]; cbn [heap].
    + eapply refs_valid_length; [|apply seeded_refs_valid].
      by rewrite transfer_heap_length.
    + intros r Hr Hout. rewrite run_outside by done.
      unfold with_baseline. by rewrite lookup_app_l.
    + intros _ r Hr. destruct (seeded_values args recs (heap s)) as [_ Hge].
      rewrite Forall_forall in Hge. by apply Hge.
    + intros P HP. apply run_keys. by eapply with_baseline_keys.
Qed.

(** *** The plugins of the baseline in the resolved configuration *)



(** *** The name of a record is not a parameter *)

Lemma baseline_params_no_name recs X ps :
  records_wf recs → baseline_params recs X = Some ps → dict_get "name" ps = None.
Proof.
  unfold records_wf, baseline_params. rewrite Forall_forall. intros Hwf Hps.
  destruct (dict_get X (reverse recs)) as [d|] eqn:Hd; [|done].
  cbn in Hps. simplify_eq. apply dict_get_del_eq.
  apply dict_get_Some_elem in Hd. rewrite elem_of_reverse in Hd. by apply (Hwf (X, d)).
Qed.

Lemma bdict_no_name recs (h : list (pdict pyval)) r :
  records_wf recs → r ∈ (bdict_of recs.*1 (length h) []).*2 →
  ∃ kw, with_baseline h recs !! r = Some kw ∧ dict_get "name" kw = None.
Proof.
  intros Hwf ([X r'] & -> & Hin)%list_elem_of_fmap.
  apply dict_get_elem in Hin; [|apply bdict_of_wf, NoDup_nil_2].
  apply baseline_built_inv in Hin as (ps & Hps & _ & Hr). exists ps.
  split; [done|]. by eapply baseline_params_no_name.
Qed.

(** The dicts of the baseline mapping hold no name. *)
Lemma baseline_mapping_no_name bs recs s :
  baseline_view (heap s) bs recs → records_wf recs →
  ∃ bdict s1,
    baseline_plugins_dict_from bs [] s = (Ok bdict, s1) ∧
    ∀ X r, dict_get X bdict = Some r →
           ∃ kw, heap s1 !! r = Some kw ∧ dict_get "name" kw = None.
Proof.
  intros Hview Hwf. do 2 eexists. split; [by apply run_baseline|].
  intros X r Hr%dict_get_Some_elem. cbn [heap]. apply bdict_no_name; [done|].
  apply list_elem_of_fmap. by exists (X, r).
Qed.

(** When the command line has no parameter called name, no parameter dict
    of the resolved configuration has one either. *)
Lemma resolved_no_name bs recs args s :
  baseline_view (heap s) bs recs → records_wf recs →
  refs_valid (heap s) (plugins args) →
  (∀ r d, r ∈ (plugins args).*2 → heap s !! r = Some d → dict_get "name" d = None) →
  ∃ cfg s', resolved_plugins_dict get_disabled_plugins bs args s = (Ok cfg, s') ∧
    ∀ X r, dict_get X cfg = Some r →
           ∃ kw, heap s' !! r = Some kw ∧ dict_get "name" kw = None.
Proof.
  intros Hview Hwf Hvalid Hargs.
  set (S := λ r : loc, r ∈ (plugins args).*2 ∨
                       r ∈ (bdict_of recs.*1 (length (heap s)) []).*2).
  assert (∀ r d, S r → with_baseline (heap s) recs !! r = Some d →
                 dict_get "name" d = None) as Hstart.
  { intros r d [Hr|Hr] Hd.
    - apply (Hargs r d Hr). unfold refs_valid in Hvalid.
      rewrite Forall_forall in Hvalid. unfold with_baseline in Hd.
      by rewrite lookup_app_l in Hd by auto.
    - destruct (bdict_no_name recs (heap s) r Hwf Hr) as (kw & Hkw & Hname).
      congruence. }
  destruct (use_all_plugins args) eqn:Hall.
  - destruct (resolved_use_all bs recs args s Hall Hview Hvalid) as [lg Hrun].
    do 2 eexists. split; [exact Hrun|]. intros X r HX. cbn [heap].
    assert (is_Some (transfer_heap (plugins args) (is_using_default_value args) true
                       (bdict_of recs.*1 (length (heap s)) [])
                       (with_baseline (heap s) recs) !! r)) as [kw Hkw].
    { apply lookup_lt_is_Some. rewrite transfer_heap_length.
      apply lookup_lt_is_Some. destruct (refs_valid_lookup _ _ _ _ Hvalid HX) as [d Hd].
      exists d. by apply with_baseline_old. }
    exists kw. split; [done|].
    eapply (run_absent _ _ _ "name" S); [| |exact Hstart| |exact Hkw].
    + intros r' Hr'. by right.
    + intros r' Hr'. by left.
    + left. apply dict_get_Some_elem in HX. apply list_elem_of_fmap. by exists (X, r).
  - destruct (resolved_baseline_only bs recs args s Hall Hview Hvalid) as [lg Hrun].
    do 2 eexists. split; [exact Hrun|]. intros X r HX. cbn [heap].
    assert (r ∈ (bdict_of recs.*1 (length (heap s)) []).*2) as Hr.
    { apply dict_get_Some_elem in HX. unfold seeded in HX.
      apply list_elem_of_filter in HX as [_ HX].
      apply list_elem_of_fmap. by exists (X, r). }
    assert (is_Some (transfer_heap (seeded get_disabled_plugins args recs (heap s))
                       (is_using_default_value args) false (plugins args)
                       (with_baseline (heap s) recs) !! r)) as [kw Hkw].
    { apply lookup_lt_is_Some. rewrite transfer_heap_length.
      apply lookup_lt_is_Some.
      destruct (bdict_no_name recs (heap s) r Hwf Hr) as (kw & Hkw & _). by exists kw. }
    exists kw. split; [done|].
    eapply (run_absent _ _ _ "name" S); [| |exact Hstart| |exact Hkw].
    + intros r' Hr'. by left.
    + intros r' Hr'. right. eapply elem_of_sublist; [done|].
      apply fmap_sublist, sublist_filter.
    + by right.
Qed.

End merger_facts.

(** ** The instantiator *)

Section instantiator_facts.
Context {Instance Automaton : Type}.
Context (import_plugins : pyval → result (pdict (@Klass Instance Automaton))).
Implicit Types (s : state) (kw : pdict pyval) (aut : option Automaton).

Lemma run_from_plugin_classname name elr aut sv pf kw s :
  from_plugin_classname import_plugins name elr aut sv pf kw s
  = ((instantiate import_plugins name elr aut sv pf kw).1,
     State (heap s) (diags s ++ (instantiate import_plugins name elr aut sv pf kw).2)).
Proof.
  unfold from_plugin_classname, instantiate, try_except, lift_result, getitem,
    print_stderr, emit, raise.
  rewrite !run_bind.
  destruct (import_plugins pf) as [catalog|e].
  - rewrite !run_bind. destruct (dict_get name catalog) as [klass|]; cbn.
    + rewrite !run_bind.
      destruct (construct klass elr aut sv kw) as [instance|e]; cbn.
      * by rewrite app_nil_r, run_state_eta.
      * destruct e; cbn; by rewrite ?app_nil_r, ?run_state_eta.
    + done.
  - destruct e; cbn; by rewrite ?app_nil_r, ?run_state_eta.
Qed.

(** C4. Construction failure propagation: when the catalog has the plugin
    and its definition rejects the keyword parameters, the call raises the
    type error to its caller, a warning logged first, and returns
    nothing. *)
Theorem construction_failure_propagates name elr aut sv pf kw s catalog klass :
  import_plugins pf = Ok catalog →
  dict_get name catalog = Some klass →
  klass elr aut sv kw = Raise TypeError →
  from_plugin_classname import_plugins name elr aut sv pf kw s
  = (Raise TypeError,
     State (heap s) (diags s ++ [LogWarning "Unable to initialize plugin!"])).
Proof.
  intros Hcat Hk Hrej. rewrite run_from_plugin_classname. unfold instantiate.
  rewrite Hcat, Hk. unfold construct. rewrite Hrej. by destruct (splat_clash _ _).
Qed.

(** *** One slot per entry *)

Lemma from_parser_builder_loop_inv cfg elr aut sv pf names : ∀ output s out s',
  from_parser_builder_loop import_plugins cfg names elr aut sv pf output s = (Ok out, s') →
  heap s' = heap s ∧
  ∃ slots, out = output ++ slots ∧
           Forall2 (slot_of import_plugins cfg (heap s) elr aut sv pf) names slots.
Proof.
  induction names as [|X names IH]; intros output s out s' Hrun.
  - unfold from_parser_builder_loop, mret, M_ret in Hrun. simplify_eq.
    split; [done|]. exists []. by rewrite app_nil_r.
  - cbn [from_parser_builder_loop] in Hrun. rewrite run_bind in Hrun.
    unfold getitem in Hrun. destruct (dict_get X cfg) as [r|] eqn:HX; [|done].
    unfold mret at 1, M_ret at 1 in Hrun. rewrite run_bind in Hrun.
    unfold deref at 1 in Hrun. destruct (heap s !! r) as [kw|] eqn:Hr; [|done].
    rewrite run_bind in Hrun. fold given_keywords in Hrun.
    destruct (splat_clash given_keywords kw) eqn:Hclash; [done|].
    rewrite run_from_plugin_classname in Hrun.
    destruct (instantiate import_plugins X elr aut sv pf kw) as [[slot|e] lg] eqn:Hinst; [|done].
    cbn [fst snd] in Hrun. apply IH in Hrun as (Hheap & slots & -> & Hslots).
    cbn [heap] in Hheap, Hslots. split; [done|]. exists (slot :: slots).
    split; [by rewrite <-app_assoc|]. constructor; [|done].
    exists r, kw. by rewrite Hinst.
Qed.

(** C7. Slot preservation: the tuple that [from_parser_builder] returns has
    one slot for each entry of the mapping, in the order of the mapping; a
    slot holds what the instantiator returned for its entry, an instance or
    nothing, and nothing is not dropped. *)
Theorem one_slot_per_entry cfg elr aut sv pf s out s' :
  from_parser_builder import_plugins cfg elr aut sv pf s = (Ok out, s') →
  length out = length cfg ∧
  ∀ i X, dict_keys cfg !! i = Some X →
    ∃ r kw slot s1,
      dict_get X cfg = Some r ∧ heap s !! r = Some kw ∧
      from_plugin_classname import_plugins X elr aut sv pf kw s = (Ok slot, s1) ∧
      out !! i = Some slot.
Proof.
  unfold from_parser_builder. intros (_ & slots & -> & Hslots)%from_parser_builder_loop_inv.
  cbn [app]. split.
  - apply Forall2_length in Hslots. unfold dict_keys in Hslots.
    by rewrite length_fmap in Hslots.
  - intros i X Hi.
    destruct (Forall2_lookup_l _ _ _ _ _ Hslots Hi)
      as (slot & Hslot & r & kw & HX & Hr & _ & Hinst).
    exists r, kw, slot. eexists. split_and!; [done|done| |done].
    rewrite run_from_plugin_classname, Hinst. done.
Qed.

(** *** Plugins that the catalog does not know *)

Lemma splat_clash_false given kw :
  (∀ k, k ∈ given → k ∉ dict_keys kw) → splat_clash given kw = false.
Proof.
  intros Hfree. unfold splat_clash. apply not_true_is_false.
  intros (k & Hk%list_elem_of_In & Hmem)%existsb_exists.
  unfold dict_mem in Hmem. apply bool_decide_eq_true in Hmem.
  apply dict_get_is_Some in Hmem. by apply (Hfree k).
Qed.



(** The instantiation stage leaves the store as it is, whatever it returns
    or raises. *)
Lemma from_parser_builder_loop_heap cfg elr aut sv pf names : ∀ output s,
  heap (from_parser_builder_loop import_plugins cfg names elr aut sv pf output s).2
  = heap s.
Proof.
  induction names as [|X names IH]; intros output s; [done|].
  cbn [from_parser_builder_loop]. rewrite run_bind. unfold getitem.
  destruct (dict_get X cfg) as [r|]; [|done].
  unfold mret at 1, M_ret at 1. rewrite run_bind. unfold deref at 1.
  destruct (heap s !! r) as [kw|]; [|done]. rewrite run_bind.
  destruct (splat_clash _ kw); [done|]. rewrite run_from_plugin_classname.
  destruct (instantiate import_plugins X elr aut sv pf kw) as [[slot|e] lg]; [|done].
  cbn [fst snd]. by rewrite IH.
Qed.

End instantiator_facts.

(** ** The merge as a whole *)

Section merge_facts.
Context {Instance Automaton : Type}.
Context (import_plugins : pyval → result (pdict (@Klass Instance Automaton))).
Context (get_mapping_from_secret_type_to_class_name : pyval → result (pdict string)).
Context (get_disabled_plugins : Args → list string).


(** *** Secret-type lookup *)

Lemma run_from_secret_type_loop classname pre plugin rest d s :
  other_records (heap s) classname pre →
  heap s !! plugin = Some d → dict_get "name" d = Some (VStr classname) →
  from_secret_type_loop import_plugins classname (pre ++ plugin :: rest) s
  = (if splat_clash given_by_secret_type (dict_del "name" d)
     then raise TypeError
     else from_plugin_classname import_plugins classname None None false
            (default VNone (dict_get "plugin_filenames" (dict_del "name" d)))
            (dict_del "plugin_filenames" (dict_del "name" d)))
      (State (heap s ++ [dict_del "name" d]) (diags s)).
Proof.
  intros Hpre Hd Hname. induction Hpre as [|q pre (dq & nm & Hq & Hnm & Hne) _ IH].
  - cbn [app from_secret_type_loop].
    rewrite (run_bind_Ok _ _ _ _ _ (run_getitem_at _ _ _ _ _ Hd Hname)).
    unfold eq_str. rewrite bool_decide_eq_true_2 by done.
    unfold dict_copy. rewrite run_bind.
    rewrite (run_bind_Ok _ _ _ _ _ (run_deref _ _ _ Hd)).
    unfold alloc. unfold pop_at. rewrite !run_bind. unfold deref at 1.
    cbn [heap diags]. rewrite list_lookup_middle by done.
    unfold dict_pop. rewrite Hname. rewrite run_bind. unfold store at 1.
    cbn [heap diags]. rewrite insert_app_r_alt by done. rewrite Nat.sub_diag.
    cbn [insert list_insert]. unfold mret at 1, M_ret at 1.
    erewrite run_bind_Ok; [done|]. apply run_deref. by apply list_lookup_middle.
  - cbn [app from_secret_type_loop].
    rewrite (run_bind_Ok _ _ _ _ _ (run_getitem_at _ _ _ _ _ Hq Hnm)).
    by rewrite Hne.
Qed.

(** C9. Name-key stripping: the dicts of the baseline mapping hold no
    name; when the command line has no parameter of that name, no parameter
    dict of the resolved configuration has one; and the secret-type lookup
    calls the instantiator with keywords that hold no name. *)
Theorem name_key_stripped bs recs args s secret_type classname mapping
    settings_before plugin settings_after d pf :
  baseline_view (heap s) bs recs → records_wf recs →
  refs_valid (heap s) (plugins args) →
  get_mapping_from_secret_type_to_class_name pf = Ok mapping →
  dict_get secret_type mapping = Some classname →
  other_records (heap s) classname settings_before →
  heap s !! plugin = Some d → dict_wf d → dict_get "name" d = Some (VStr classname) →
  (∃ bdict s1,
     baseline_plugins_dict_from bs [] s = (Ok bdict, s1) ∧
     ∀ X r, dict_get X bdict = Some r →
            ∃ kw, heap s1 !! r = Some kw ∧ dict_get "name" kw = None) ∧
  ((∀ r d, r ∈ (plugins args).*2 → heap s !! r = Some d → dict_get "name" d = None) →
   ∃ cfg s', resolved_plugins_dict get_disabled_plugins bs args s = (Ok cfg, s') ∧
     ∀ X r, dict_get X cfg = Some r →
            ∃ kw, heap s' !! r = Some kw ∧ dict_get "name" kw = None) ∧
  (∃ kw filenames s1,
     dict_get "name" kw = None ∧
     from_secret_type import_plugins get_mapping_from_secret_type_to_class_name
       secret_type (settings_before ++ plugin :: settings_after) pf s
     = (if splat_clash given_by_secret_type (dict_del "name" d)
        then raise TypeError
        else from_plugin_classname import_plugins classname None None false
               filenames kw) s1).
Proof.
  intros Hview Hwf Hvalid Hmap Hst Hpre Hd Hdwf Hname. split_and!.
  - by apply (baseline_mapping_no_name bs recs).
  - intros Hargs. by apply (resolved_no_name _ bs recs).
  - do 3 eexists. split; [|unfold from_secret_type].
    2:{ unfold lift_result. rewrite (run_bind_Ok _ _ _ mapping s) by by rewrite Hmap.
        unfold try_except, getitem. rewrite Hst.
        rewrite (run_bind_Ok _ _ _ (Some classname) s) by done.
        by apply run_from_secret_type_loop. }
    rewrite dict_get_del_ne by done. by apply dict_get_del_eq.
Qed.

(** *** What a merge does to its inputs *)

(** The objects that the caller passed and that the resolved configuration
    does not name are, after the merge, as they were before it. *)
Lemma merge_frame bs recs args aut s :
  baseline_view (heap s) bs recs →
  refs_valid (heap s) (plugins args) →
  ∃ cfg s1,
    resolved_plugins_dict get_disabled_plugins bs args s = (Ok cfg, s1) ∧
    ∀ r, r < length (heap s) → r ∉ cfg.*2 →
      heap (merge_plugins_from_baseline import_plugins get_disabled_plugins
              bs args aut s).2 !! r
      = heap s !! r.
Proof.
  intros Hview Hvalid.
  destruct (resolved_total get_disabled_plugins bs recs args s Hview Hvalid)
    as (cfg & s1 & Hres & _ & Hframe & _).
  exists cfg, s1. split; [done|]. intros r Hr Hout.
  unfold merge_plugins_from_baseline. rewrite (run_bind_Ok _ _ _ _ _ Hres).
  unfold from_parser_builder. rewrite from_parser_builder_loop_heap. by apply Hframe.
Qed.

(** Without [use_all_plugins] the merge writes to new objects only: the
    command line's parameter dicts and the plugin objects of the baseline
    are as they were. *)
Lemma baseline_only_preserves_inputs bs recs args aut s r :
  use_all_plugins args = false →
  baseline_view (heap s) bs recs →
  refs_valid (heap s) (plugins args) →
  r < length (heap s) →
  heap (merge_plugins_from_baseline import_plugins get_disabled_plugins
          bs args aut s).2 !! r
  = heap s !! r.
Proof.
  intros Hall Hview Hvalid Hr.
  destruct (resolved_total get_disabled_plugins bs recs args s Hview Hvalid)
    as (cfg & s1 & Hres & _ & Hframe & Hnew & _).
  unfold merge_plugins_from_baseline. rewrite (run_bind_Ok _ _ _ _ _ Hres).
  unfold from_parser_builder. rewrite from_parser_builder_loop_heap.
  apply Hframe; [done|]. intros Hin%(Hnew Hall). lia.
Qed.

End merge_facts.

(** * Worked examples *)

Lemma example_baseline_view : baseline_view example_store [1; 2] example_records.
Proof. repeat constructor. Qed.

Lemma example_records_wf : records_wf example_records.
Proof. repeat constructor; compute_done. Qed.

Lemma example_refs_valid use_all flags :
  refs_valid example_store (plugins (example_args use_all flags)).
Proof. repeat constructor. Qed.

Lemma example_args_wf use_all flags : args_wf example_store (example_args use_all flags).
Proof.
  split; [compute_done|].
  repeat constructor; intros d [= <-]; compute_done.
Qed.

(** The example of the specification, and one parameter more: the flag of
    [base64_limit] reads "default" and the baseline's 3.0 wins, the flag of
    [keyword_exclude] reads "explicit" and the command line's value stays. *)
Lemma context_A_precedence_witness :
  let args := example_args true [("base64_limit", true); ("keyword_exclude", false)] in
  ∃ s', resolved_plugins_dict nothing_disabled [1; 2] args example_state
        = (Ok (plugins args), s') ∧
    ∀ p,
      (dict_get p (is_using_default_value args) = Some true →
       ∀ v, dict_get p [("base64_limit", VFloat 3 0)] = Some v →
            param_of (plugins args) (heap s') "Base64HighEntropyString" p = Some v) ∧
      (dict_get p (is_using_default_value args) = Some false →
       param_of (plugins args) (heap s') "Base64HighEntropyString" p
       = param_of (plugins args) (heap example_state) "Base64HighEntropyString" p).
Proof.
  apply (context_A_precedence nothing_disabled [1; 2] example_records).
  - reflexivity.
  - apply example_baseline_view.
  - apply example_records_wf.
  - apply example_refs_valid.
  - compute_done.
  - compute_done.
  - reflexivity.
Defined.

(** The baseline seeds the configuration and the command line's 4.5 was
    typed: it replaces the baseline's 3.0. *)
Lemma context_B_precedence_witness :
  let args := example_args false [("base64_limit", false); ("keyword_exclude", true)] in
  ∃ cfg s', resolved_plugins_dict nothing_disabled [1; 2] args example_state = (Ok cfg, s') ∧
    is_Some (dict_get "Base64HighEntropyString" cfg) ∧
    ∀ p,
      (dict_get p (is_using_default_value args) = Some false →
       ∀ v, param_of (plugins args) (heap example_state) "Base64HighEntropyString" p = Some v →
            param_of cfg (heap s') "Base64HighEntropyString" p = Some v) ∧
      (dict_get p (is_using_default_value args) = Some true →
       param_of cfg (heap s') "Base64HighEntropyString" p
       = dict_get p [("base64_limit", VFloat 3 0)]).
Proof.
  apply (context_B_precedence nothing_disabled [1; 2] example_records).
  - reflexivity.
  - apply example_baseline_view.
  - apply example_refs_valid.
  - apply example_args_wf.
  - reflexivity.
  - compute_done.
Defined.

(** A disabled plugin that the baseline holds and for which the command
    line gives an explicit parameter is not in the resolved
    configuration. *)
Lemma disabled_plugins_excluded_witness :
  let args := example_args false [("base64_limit", false)] in
  ∃ cfg s', resolved_plugins_dict base64_disabled [1; 2] args example_state = (Ok cfg, s') ∧
            dict_get "Base64HighEntropyString" cfg = None.
Proof.
  do 2 eexists. split; [vm_compute; reflexivity|].
  eapply (disabled_plugins_excluded base64_disabled [1; 2]
            (example_args false [("base64_limit", false)]) example_state).
  - reflexivity.
  - vm_compute. reflexivity.
  - compute_done.
Defined.


Lemma example_no_overrides :
  no_overrides example_store
    (example_args false [("base64_limit", true); ("keyword_exclude", true)]).
Proof.
  intros r items p Hr Hitems Hp. cbn in Hr.
  apply elem_of_cons in Hr as [->|Hr]; [|apply list_elem_of_singleton in Hr as ->];
    cbn in Hitems; simplify_eq; cbn in Hp; apply list_elem_of_singleton in Hp as ->;
    reflexivity.
Qed.

(** The baseline of a configuration of two plugins, merged without
    [use_all_plugins] under a command line whose flags all read "default",
    resolves to that configuration. *)
Lemma round_trip_identity_witness :
  let args := example_args false [("base64_limit", true); ("keyword_exclude", true)] in
  let cfg0 := [("Base64HighEntropyString", [("base64_limit", VFloat 3 0)]);
               ("RemovedDetector", [("limit", VInt 7)])] in
  ∃ cfg s', resolved_plugins_dict nothing_disabled [1; 2] args example_state = (Ok cfg, s') ∧
            equivalent (heap s') cfg cfg0.
Proof.
  apply (round_trip_identity nothing_disabled [1; 2] example_records).
  - reflexivity.
  - compute_done.
  - apply example_records_wf.
  - apply example_baseline_view.
  - apply example_refs_valid.
  - split; [reflexivity|apply example_no_overrides].
Defined.

(** C6, as it is stated, does not hold with [use_all_plugins]: the baseline
    of a configuration of one plugin, merged under a command line that
    overrides nothing and disables nothing, resolves to a configuration
    that has the other plugin of the command line as well. *)
Lemma round_trip_use_all_counterexample :
  let args := example_args true [("base64_limit", true); ("keyword_exclude", true)] in
  let recs := [("Base64HighEntropyString", baseline_base64)] in
  let cfg0 := [("Base64HighEntropyString", [("base64_limit", VFloat 3 0)])] in
  baseline_view example_store [1] recs ∧
  config_of_baseline recs = cfg0 ∧
  no_overrides example_store args ∧
  config_defaults args cfg0 ∧
  nothing_disabled args = [] ∧
  ∃ cfg s', resolved_plugins_dict nothing_disabled [1] args example_state = (Ok cfg, s') ∧
    deep (heap s') cfg
    = Some [("Base64HighEntropyString", [("base64_limit", VFloat 3 0)]);
            ("KeywordDetector", [("keyword_exclude", VStr "id")])] ∧
    ¬ equivalent (heap s') cfg cfg0.
Proof.
  split_and!.
  - repeat constructor.
  - reflexivity.
  - intros r items p Hr Hitems Hp. cbn in Hr.
    apply elem_of_cons in Hr as [->|Hr]; [|apply list_elem_of_singleton in Hr as ->];
      cbn in Hitems; simplify_eq; cbn in Hp; apply list_elem_of_singleton in Hp as ->;
      reflexivity.
  - intros X ps p HX Hp. cbn in HX. case_decide; [|done]. simplify_eq.
    cbn in Hp. apply list_elem_of_singleton in Hp as ->. reflexivity.
  - reflexivity.
  - do 2 eexists. split_and!; [vm_compute; reflexivity|reflexivity|].
    intros [Hkeys _]. destruct (proj1 (Hkeys "KeywordDetector")) as [ps Hps].
    + by eexists.
    + discriminate Hps.
Defined.

(** Two entries, the first for a plugin that the catalog does not know:
    two slots, the first holds nothing. *)
Lemma one_slot_per_entry_witness :
  let cfg := [("RemovedDetector", 3); ("Base64HighEntropyString", 0)] in
  ∃ out s',
    from_parser_builder strict_catalog cfg None None true (VTuple []) example_state
    = (Ok out, s') ∧
    out = [None; Some (Plugin "Base64HighEntropyString" true cli_base64)] ∧
    length out = length cfg ∧
    ∀ i X, dict_keys cfg !! i = Some X →
      ∃ r kw slot s1,
        dict_get X cfg = Some r ∧ heap example_state !! r = Some kw ∧
        from_plugin_classname strict_catalog X None None true (VTuple []) kw example_state
        = (Ok slot, s1) ∧
        out !! i = Some slot.
Proof.
  do 2 eexists. split; [vm_compute; reflexivity|]. split; [reflexivity|].
  eapply (one_slot_per_entry strict_catalog
            [("RemovedDetector", 3); ("Base64HighEntropyString", 0)]
            None None true (VTuple []) example_state).
  vm_compute. reflexivity.
Defined.




(** A class that takes [base64_limit] only, called with a keyword that it
    does not take. *)
Lemma construction_failure_propagates_witness :
  from_plugin_classname strict_catalog "Base64HighEntropyString" None None true
    (VTuple []) [("hex_limit", VInt 3)] example_state
  = (Raise TypeError,
     State example_store [LogWarning "Unable to initialize plugin!"]).
Proof.
  apply (construction_failure_propagates strict_catalog "Base64HighEntropyString"
           None None true (VTuple []) [("hex_limit", VInt 3)] example_state
           [("Base64HighEntropyString", strict_class "Base64HighEntropyString" ["base64_limit"]);
            ("KeywordDetector", strict_class "KeywordDetector" ["keyword_exclude"])]
           (strict_class "Base64HighEntropyString" ["base64_limit"])).
  - reflexivity.
  - reflexivity.
  - reflexivity.
Defined.

(** The baseline of the examples, and the lookup of a secret type among
    its two records. *)
Lemma name_key_stripped_witness :
  let args := example_args false [("base64_limit", false)] in
  (∃ bdict s1,
     baseline_plugins_dict_from [1; 2] [] example_state = (Ok bdict, s1) ∧
     ∀ X r, dict_get X bdict = Some r →
            ∃ kw, heap s1 !! r = Some kw ∧ dict_get "name" kw = None) ∧
  ((∀ r d, r ∈ (plugins args).*2 → heap example_state !! r = Some d →
           dict_get "name" d = None) →
   ∃ cfg s', resolved_plugins_dict nothing_disabled [1; 2] args example_state = (Ok cfg, s') ∧
     ∀ X r, dict_get X cfg = Some r →
            ∃ kw, heap s' !! r = Some kw ∧ dict_get "name" kw = None) ∧
  (∃ kw filenames s1,
     dict_get "name" kw = None ∧
     from_secret_type strict_catalog example_mapping "Base64 High Entropy String"
       ([2] ++ 1 :: []) VNone example_state
     = (if splat_clash given_by_secret_type (dict_del "name" baseline_base64)
        then raise TypeError
        else from_plugin_classname strict_catalog "Base64HighEntropyString" None None
               false filenames kw) s1).
Proof.
  apply (name_key_stripped strict_catalog example_mapping nothing_disabled [1; 2]
           example_records (example_args false [("base64_limit", false)]) example_state
           "Base64 High Entropy String" "Base64HighEntropyString"
           [("Base64 High Entropy String", "Base64HighEntropyString");
            ("Secret Keyword", "KeywordDetector")]
           [2] 1 [] baseline_base64 VNone).
  - apply example_baseline_view.
  - apply example_records_wf.
  - apply example_refs_valid.
  - reflexivity.
  - reflexivity.
  - repeat constructor. exists baseline_removed, (VStr "RemovedDetector"). done.
  - reflexivity.
  - compute_done.
  - reflexivity.
Defined.

(** C8. The merge with [use_all_plugins] writes into the parameter dicts of
    its caller.  On the example of the specification, with the flag of
    [base64_limit] reading "default": before the call [args.plugins] holds
    the 4.5 of the command line, after it the 3.0 of the baseline; and a
    later merge of the same [args] with an empty baseline builds the plugin
    with 3.0, where the same merge before the first call builds it with
    4.5. *)
Theorem use_all_plugins_writes_into_args :
  let args := spec_example_args true in
  let merge := merge_plugins_from_baseline strict_catalog nothing_disabled in
  ∃ out s',
    merge [1] args None spec_example_state = (Ok out, s') ∧
    deep (heap spec_example_state) (plugins args)
    = Some [("Base64HighEntropyString", [("base64_limit", VFloat 9 (-1))])] ∧
    deep (heap s') (plugins args)
    = Some [("Base64HighEntropyString", [("base64_limit", VFloat 3 0)])] ∧
    (merge [] args None spec_example_state).1
    = Ok [Some (Plugin "Base64HighEntropyString" true [("base64_limit", VFloat 9 (-1))])] ∧
    (merge [] args None s').1
    = Ok [Some (Plugin "Base64HighEntropyString" true [("base64_limit", VFloat 3 0)])].
Proof. do 2 eexists. split_and!; vm_compute; reflexivity. Qed.

(** * Further properties *)

(** ** What the merging loops log *)

Section merger_diags.
Context (get_disabled_plugins : Args → list string).
Implicit Types (args : Args) (s : state) (recs : pdict (pdict pyval)).

Lemma skipped_known_ext known known' flags prefer_default mk h src :
  (∀ X, known X = known' X) →
  skipped known flags prefer_default mk h src
  = skipped known' flags prefer_default mk h src.
Proof.
  intros Hk. unfold skipped. induction src as [|[X r] src IH]; [done|].
  cbn [mbind list_bind fst snd]. by rewrite Hk, IH.
Qed.

Lemma skipped_with_baseline known flags prefer_default mk recs : ∀ h : list (pdict pyval),
  skipped known flags prefer_default mk (with_baseline h recs)
    (imap (λ i name, (name, length h + i)) recs.*1)
  = recs ≫= λ rec,
      if known rec.1 then []
      else skipped_params flags prefer_default mk rec.1 (dict_del "name" rec.2).
Proof.
  induction recs as [|[nm d] recs IH]; intros h; [done|].
  unfold skipped, with_baseline. rewrite !fmap_cons. cbn [imap fst snd].
  cbn [mbind list_bind fst snd]. rewrite Nat.add_0_r, list_lookup_middle by done.
  cbn [default]. f_equal.
  specialize (IH (h ++ [dict_del "name" d])).
  unfold skipped, with_baseline in IH. rewrite <-app_assoc in IH. cbn [app] in IH.
  rewrite <-IH. f_equal. apply imap_ext. intros i nm' _. cbn.
  rewrite length_app. cbn [length]. f_equal. lia.
Qed.

(** X3. What the first context logs: with [use_all_plugins] and a baseline
    of distinct names, the merger logs one warning for each parameter
    flagged "default" of each baseline plugin that the command line does
    not name, in the order of the baseline, and nothing else. *)
Theorem use_all_logs_missing_plugins bs recs args s :
  use_all_plugins args = true →
  baseline_view (heap s) bs recs → NoDup recs.*1 →
  refs_valid (heap s) (plugins args) →
  ∃ s', resolved_plugins_dict get_disabled_plugins bs args s = (Ok (plugins args), s') ∧
        diags s' = diags s ++ baseline_warnings args recs.
Proof.
  intros Hall Hview Hnd Hvalid. unfold resolved_plugins_dict.
  rewrite (run_bind_Ok _ _ _ _ _ (run_baseline _ _ _ _ Hview)). rewrite Hall.
  pose proof (run_transfer_diags (plugins args) (is_using_default_value args) true
                not_in_all_plugins (bdict_of recs.*1 (length (heap s)) [])
                (State (with_baseline (heap s) recs) (diags s))) as Hrun.
  unfold transfer, not_in_all_plugins in Hrun. erewrite run_bind_Ok; [|apply Hrun].
  - eexists. split; [done|]. cbn [heap diags]. f_equal.
    rewrite bdict_of_imap by done. fold not_in_all_plugins.
    apply skipped_with_baseline.
  - apply bdict_refs_valid.
  - eapply refs_valid_length; [|done]. unfold with_baseline. cbn.
    rewrite length_app. lia.
  - intros r Hr Hin. cbn [heap] in *.
    destruct (bdict_of_values recs.*1 (length (heap s))) as [_ Hrange].
    rewrite Forall_forall in Hrange. apply Hrange in Hr.
    unfold refs_valid in Hvalid. rewrite Forall_forall in Hvalid.
    apply Hvalid in Hin. lia.
Qed.

(** X4. What the second context logs: without [use_all_plugins] the merger
    logs one debug message for each parameter not flagged "default" of
    each command-line plugin that is disabled or that the baseline does
    not hold, in the order of the command line, and nothing else. *)
Theorem baseline_only_logs_unconfigured bs recs args s :
  use_all_plugins args = false →
  baseline_view (heap s) bs recs →
  refs_valid (heap s) (plugins args) →
  ∃ cfg s', resolved_plugins_dict get_disabled_plugins bs args s = (Ok cfg, s') ∧
            diags s' = diags s ++ command_line_debug get_disabled_plugins args recs (heap s).
Proof.
  intros Hall Hview Hvalid. unfold resolved_plugins_dict.
  rewrite (run_bind_Ok _ _ _ _ _ (run_baseline _ _ _ _ Hview)). rewrite Hall.
  rewrite dict_comprehension_wf
    by (apply dict_wf_filter, bdict_of_wf, NoDup_nil_2).
  fold (seeded get_disabled_plugins args recs (heap s)).
  pose proof (run_transfer_diags (seeded get_disabled_plugins args recs (heap s))
                (is_using_default_value args) false not_configured (plugins args)
                (State (with_baseline (heap s) recs) (diags s))) as Hrun.
  unfold transfer, not_configured in Hrun. erewrite run_bind_Ok; [|apply Hrun].
  - do 2 eexists. split; [done|]. cbn [heap diags]. f_equal.
    fold not_configured. unfold command_line_debug.
    etrans; [apply skipped_ext|apply skipped_known_ext].
    + intros r Hr. unfold with_baseline. apply lookup_app_l.
      unfold refs_valid in Hvalid. rewrite Forall_forall in Hvalid. by apply Hvalid.
    + intros X. apply bool_decide_ext, seeded_is_Some.
  - eapply refs_valid_length; [|done]. unfold with_baseline. cbn.
    rewrite length_app. lia.
  - apply seeded_refs_valid.
  - intros r Hr Hin. cbn [heap] in *.
    destruct (seeded_values get_disabled_plugins args recs (heap s)) as [_ Hrange].
    rewrite Forall_forall in Hrange. apply Hrange in Hin.
    unfold refs_valid in Hvalid. rewrite Forall_forall in Hvalid.
    apply Hvalid in Hr. lia.
Qed.

End merger_diags.

(** ** Which plugins and parameters the merger resolves *)

Section merger_more.
Context (get_disabled_plugins : Args → list string).
Implicit Types (args : Args) (s : state) (recs : pdict (pdict pyval)).

Lemma dict_keys_filter_enabled (D : list string) (d : pdict loc) :
  dict_keys (filter (λ entry, entry.1 ∉ D) d) = filter (λ X, X ∉ D) (dict_keys d).
Proof.
  unfold dict_keys. induction d as [|[X r] d IH]; [done|].
  rewrite fmap_cons. cbn [fst]. destruct (decide (X ∈ D)).
  - rewrite !filter_cons_False by auto. done.
  - rewrite !filter_cons_True by done. by rewrite fmap_cons, IH.
Qed.

Lemma baseline_params_None recs X : X ∉ recs.*1 → baseline_params recs X = None.
Proof.
  intros HX. unfold baseline_params.
  assert (dict_get X (reverse recs) = None) as ->; [|done].
  apply dict_get_None. unfold dict_keys. by rewrite fmap_reverse, elem_of_reverse.
Qed.

(** X2. The plugins of the second context: without [use_all_plugins] the
    resolved configuration names exactly the plugins of the baseline that
    are not disabled, each once, and in the order of the baseline when its
    names are distinct; the command line adds no plugin. *)
Theorem baseline_only_plugin_set bs recs args s :
  use_all_plugins args = false →
  baseline_view (heap s) bs recs →
  refs_valid (heap s) (plugins args) →
  ∃ cfg s', resolved_plugins_dict get_disabled_plugins bs args s = (Ok cfg, s') ∧
    dict_wf cfg ∧
    (∀ X, X ∈ dict_keys cfg ↔ X ∈ recs.*1 ∧ X ∉ get_disabled_plugins args) ∧
    (NoDup recs.*1 →
     dict_keys cfg = filter (λ X, X ∉ get_disabled_plugins args) recs.*1).
Proof.
  intros Hall Hview Hvalid.
  destruct (resolved_baseline_only get_disabled_plugins bs recs args s Hall Hview Hvalid)
    as [lg Hrun].
  do 2 eexists. split_and!; [exact Hrun|..].
  - apply dict_wf_filter, bdict_of_wf, NoDup_nil_2.
  - intros X. rewrite <-dict_get_is_Some. apply seeded_is_Some.
  - intros Hnd. unfold seeded. rewrite dict_keys_filter_enabled.
    rewrite bdict_of_imap by done. f_equal. unfold dict_keys.
    rewrite fmap_imap. clear. generalize (length (heap s)). intros n.
    induction (recs.*1) as [|nm names IH] using rev_ind; [done|].
    rewrite imap_app. cbn [imap]. by rewrite IH.
Qed.

(** X5. A plugin that only the command line names: with [use_all_plugins],
    a plugin of the command line that the baseline does not name is
    resolved with the command line's parameter dict as it was. *)
Theorem use_all_plugin_outside_baseline bs recs args s X l d :
  use_all_plugins args = true →
  baseline_view (heap s) bs recs →
  refs_valid (heap s) (plugins args) → NoDup (plugins args).*2 →
  dict_get X (plugins args) = Some l → heap s !! l = Some d →
  X ∉ recs.*1 →
  ∃ s', resolved_plugins_dict get_disabled_plugins bs args s = (Ok (plugins args), s') ∧
        heap s' !! l = Some d.
Proof.
  intros Hall Hview Hvalid Hnd HX Hl Hout.
  destruct (use_all_dict get_disabled_plugins bs recs args s X l d)
    as (s' & Hrun & Hres); try done.
  exists s'. split; [done|]. by rewrite Hres, baseline_params_None.
Qed.

(** X6. A plugin that only the baseline names: without [use_all_plugins],
    a plugin of the baseline that is not disabled and that the command
    line does not name is resolved with exactly the parameters of its
    record, the name left out. *)
Theorem baseline_only_plugin_outside_command_line bs recs args s X ps :
  use_all_plugins args = false →
  baseline_view (heap s) bs recs →
  refs_valid (heap s) (plugins args) →
  baseline_params recs X = Some ps → X ∉ get_disabled_plugins args →
  dict_get X (plugins args) = None →
  ∃ cfg s' r, resolved_plugins_dict get_disabled_plugins bs args s = (Ok cfg, s') ∧
              dict_get X cfg = Some r ∧ heap s' !! r = Some ps.
Proof.
  intros Hall Hview Hvalid Hps Hen HX.
  destruct (resolved_baseline_only get_disabled_plugins bs recs args s Hall Hview Hvalid)
    as [lg Hrun].
  pose proof (baseline_built recs (heap s) X) as Hb. rewrite Hps in Hb.
  destruct Hb as (r & Hr & Hge & Hr1).
  assert (dict_get X (seeded get_disabled_plugins args recs (heap s)) = Some r) as Hseed.
  { rewrite seeded_get. by rewrite decide_False. }
  destruct (seeded_values get_disabled_plugins args recs (heap s)) as [Hnd _].
  do 3 eexists. split_and!; [exact Hrun|exact Hseed|]. cbn [heap].
  by rewrite (run_miss _ _ _ X r).
Qed.

Lemma dict_set_id {V} (d : pdict V) k v : dict_get k d = Some v → dict_set k v d = d.
Proof.
  induction d as [|[k0 v0] d IH]; [done|]. cbn [dict_get dict_set].
  case_decide; [by intros [= ->]; subst|]. intros Hk. by rewrite IH.
Qed.

Lemma overlay_fixed flags prefer_default (items d : pdict pyval) :
  (∀ p v, (p, v) ∈ items → taken flags prefer_default p → dict_get p d = Some v) →
  overlay flags prefer_default items d = d.
Proof.
  induction items as [|[p v] items IH]; intros Hfix; [done|].
  rewrite overlay_cons. case_bool_decide as Ht.
  - rewrite dict_set_id by (apply Hfix; [left|done]).
    apply IH. intros p' v' Hin. apply Hfix. by right.
  - apply IH. intros p' v' Hin. apply Hfix. by right.
Qed.

Lemma overlay_idempotent flags prefer_default (items d : pdict pyval) :
  dict_wf items →
  overlay flags prefer_default items (overlay flags prefer_default items d)
  = overlay flags prefer_default items d.
Proof.
  intros Hwf. apply overlay_fixed. intros p v Hin Ht.
  apply overlay_taken; [done| |done]. by apply dict_get_elem.
Qed.

(** X7. Merging again changes nothing more: with [use_all_plugins], when
    the plugin objects of the baseline are not the parameter dicts of the
    command line, a second merge of the same baseline and arguments leaves
    every parameter dict of [args.plugins] as the first merge left it. *)
Theorem use_all_merge_twice bs recs args s :
  use_all_plugins args = true →
  baseline_view (heap s) bs recs → records_wf recs →
  refs_valid (heap s) (plugins args) → NoDup (plugins args).*2 →
  Forall (λ b, b ∉ (plugins args).*2) bs →
  ∃ s1 s2,
    resolved_plugins_dict get_disabled_plugins bs args s = (Ok (plugins args), s1) ∧
    resolved_plugins_dict get_disabled_plugins bs args s1 = (Ok (plugins args), s2) ∧
    ∀ X l, dict_get X (plugins args) = Some l → heap s2 !! l = heap s1 !! l.
Proof.
  intros Hall Hview Hwf Hvalid Hnd Hsep.
  destruct (resolved_total get_disabled_plugins bs recs args s Hview Hvalid)
    as (cfg & s1 & Hres1 & Hvalid1 & Hframe & _).
  destruct (resolved_use_all get_disabled_plugins bs recs args s Hall Hview Hvalid)
    as [lg Hrun]. rewrite Hrun in Hres1. simplify_eq.
  set (s1 := State _ lg) in *. clearbody s1.
  assert (baseline_view (heap s1) bs recs) as Hview1.
  { unfold baseline_view in *. rewrite Forall_forall in Hsep.
    clear -Hview Hframe Hsep.
    induction Hview as [|b rec bs recs [Hb Hname] _ IH]; constructor.
    - split; [|done]. rewrite Hframe; [done|by eapply lookup_lt_Some|].
      apply Hsep. left.
    - apply IH. intros b' Hb'. apply Hsep. by right. }
  destruct (resolved_use_all get_disabled_plugins bs recs args s1 Hall Hview1 Hvalid1)
    as [lg2 Hrun2].
  exists s1. eexists. split_and!; [done|exact Hrun2|]. intros X l HX.
  destruct (refs_valid_lookup _ _ _ _ Hvalid HX) as [d Hd].
  destruct (use_all_dict get_disabled_plugins bs recs args s X l d)
    as (s1' & Hrun' & Hl1); try done.
  assert (s1' = s1) as -> by congruence.
  destruct (use_all_dict get_disabled_plugins bs recs args s1 X l _ Hall Hview1 Hvalid1
              Hnd HX Hl1) as (s2' & Hrun2' & Hl2).
  rewrite Hrun2 in Hrun2'. injection Hrun2' as <-. cbn [heap] in Hl2 |- *.
  rewrite Hl2, Hl1. f_equal.
  destruct (baseline_params recs X) as [ps|] eqn:Hps; [|done].
  apply overlay_idempotent. by eapply baseline_params_wf.
Qed.

End merger_more.

(** ** The merge, its result and its inputs *)

Section merge_more.
Context {Instance Automaton : Type}.
Context (import_plugins : pyval → result (pdict (@Klass Instance Automaton))).
Context (get_disabled_plugins : Args → list string).
Implicit Types (args : Args) (s : state) (aut : option Automaton).

Lemma resolved_use_all_inv bs args s cfg s1 :
  use_all_plugins args = true →
  resolved_plugins_dict get_disabled_plugins bs args s = (Ok cfg, s1) →
  cfg = plugins args.
Proof.
  intros Hall Hrun. unfold resolved_plugins_dict in Hrun. rewrite run_bind in Hrun.
  destruct (baseline_plugins_dict_from bs [] s) as [[bdict|e] s0]; [|done].
  rewrite Hall, run_bind in Hrun.
  destruct (_get_prioritized_parameters _ _ _ _ _) as [[[]|e] s2]; [|done].
  unfold mret, M_ret in Hrun. by simplify_eq.
Qed.

(** X1. What the merge returns: when [merge_plugins_from_baseline] returns,
    its tuple has one slot for each entry of the resolved configuration, in
    order, and the slot is what [from_plugin_classname] gives for the
    entry's parameters with the options of the arguments, [should_verify]
    being the negation of [no_verify]; the store is as the merger left it,
    and with [use_all_plugins] the entries are those of [args.plugins]. *)
Theorem merge_instantiates_resolved bs args aut s out s' :
  merge_plugins_from_baseline import_plugins get_disabled_plugins bs args aut s
  = (Ok out, s') →
  ∃ cfg s1,
    resolved_plugins_dict get_disabled_plugins bs args s = (Ok cfg, s1) ∧
    (use_all_plugins args = true → cfg = plugins args) ∧
    heap s' = heap s1 ∧ length out = length cfg ∧
    ∀ i X, dict_keys cfg !! i = Some X →
      ∃ r kw slot s2,
        dict_get X cfg = Some r ∧ heap s1 !! r = Some kw ∧
        from_plugin_classname import_plugins X (exclude_lines args) aut
          (negb (no_verify args)) (plugin_filenames args) kw s1 = (Ok slot, s2) ∧
        out !! i = Some slot.
Proof.
  unfold merge_plugins_from_baseline. rewrite run_bind.
  destruct (resolved_plugins_dict get_disabled_plugins bs args s)
    as [[cfg|e] s1] eqn:Hres; [|done].
  unfold from_parser_builder.
  intros (Hheap & slots & -> & Hslots)%from_parser_builder_loop_inv.
  exists cfg, s1. split_and!; [done| |done| |].
  - intros Hall. by eapply resolved_use_all_inv.
  - apply Forall2_length in Hslots. unfold dict_keys in Hslots.
    by rewrite length_fmap in Hslots.
  - intros i X Hi. cbn [app].
    destruct (Forall2_lookup_l _ _ _ _ _ Hslots Hi)
      as (slot & Hslot & r & kw & HX & Hr & _ & Hinst).
    exists r, kw, slot. eexists. split_and!; [done|done| |done].
    rewrite run_from_plugin_classname, Hinst. done.
Qed.

(** X8. Without [use_all_plugins] the merge writes to new objects only:
    whatever it returns or raises, every object that the caller passed,
    the parameter dicts of the command line and the plugin objects of the
    baseline among them, is afterwards as it was. *)
Theorem baseline_only_leaves_inputs bs recs args aut s r d :
  use_all_plugins args = false →
  baseline_view (heap s) bs recs →
  refs_valid (heap s) (plugins args) →
  heap s !! r = Some d →
  heap (merge_plugins_from_baseline import_plugins get_disabled_plugins
          bs args aut s).2 !! r
  = Some d.
Proof.
  intros Hall Hview Hvalid Hr.
  rewrite (baseline_only_preserves_inputs import_plugins get_disabled_plugins
             bs recs args aut s r); [done..|].
  by eapply lookup_lt_Some.
Qed.

(** X9. With [use_all_plugins] the merge writes to the parameter dicts of
    [args.plugins] and to nothing else that the caller passed: a plugin
    object of the baseline that is not one of those dicts is afterwards as
    it was, whatever the merge returns or raises. *)
Theorem use_all_writes_to_args_only bs recs args aut s r d :
  use_all_plugins args = true →
  baseline_view (heap s) bs recs →
  refs_valid (heap s) (plugins args) →
  heap s !! r = Some d → r ∉ (plugins args).*2 →
  heap (merge_plugins_from_baseline import_plugins get_disabled_plugins
          bs args aut s).2 !! r
  = Some d.
Proof.
  intros Hall Hview Hvalid Hr Hout.
  destruct (merge_frame import_plugins get_disabled_plugins bs recs args aut s
              Hview Hvalid) as (cfg & s1 & Hres & Hframe).
  apply (resolved_use_all_inv _ _ _ _ _ Hall) in Hres as ->.
  rewrite Hframe; [done| |done]. by eapply lookup_lt_Some.
Qed.

Lemma run_baseline_no_name b d post recs : ∀ pre acc s,
  baseline_view (heap s) pre recs →
  heap s !! b = Some d → dict_get "name" d = None →
  baseline_plugins_dict_from (pre ++ b :: post) acc s
  = (Raise KeyError, State (with_baseline (heap s) recs) (diags s)).
Proof.
  induction recs as [|[nm d0] recs IH]; intros pre acc s Hview Hb Hname.
  - apply Forall2_nil_inv_r in Hview as ->. cbn [app baseline_plugins_dict_from].
    unfold getitem_at. rewrite run_bind.
    rewrite (run_bind_Ok _ _ _ _ _ (run_deref _ _ _ Hb)).
    unfold getitem. rewrite Hname. unfold with_baseline. cbn.
    by rewrite app_nil_r, run_state_eta.
  - apply Forall2_cons_inv_r in Hview as (b0 & pre' & [Hb0 Hname0] & Hview & ->).
    cbn [fst snd] in Hb0, Hname0. cbn [app baseline_plugins_dict_from].
    rewrite (run_bind_Ok _ _ _ _ _ (run_getitem_at _ _ _ _ _ Hb0 Hname0)).
    cbn [as_plugin_name]. rewrite (run_bind_Ok _ _ _ nm s) by done.
    erewrite run_bind_Ok; [|by apply run_remove_key].
    rewrite (IH pre'); cbn [heap diags].
    + unfold with_baseline. rewrite !fmap_cons. cbn [snd]. by rewrite <-app_assoc.
    + by apply baseline_view_app.
    + by apply lookup_app_l_Some.
    + done.
Qed.

(** X10. A baseline record without a name: when a plugin object of the
    baseline has no [name], the merge raises the key error in either
    context; the records before it were copied, nothing was logged and no
    plugin was instantiated. *)
Theorem baseline_record_without_name pre recs b post d args aut s :
  baseline_view (heap s) pre recs →
  heap s !! b = Some d → dict_get "name" d = None →
  merge_plugins_from_baseline import_plugins get_disabled_plugins
    (pre ++ b :: post) args aut s
  = (Raise KeyError, State (with_baseline (heap s) recs) (diags s)).
Proof.
  intros Hview Hb Hname. unfold merge_plugins_from_baseline, resolved_plugins_dict.
  rewrite run_bind, run_bind.
  by rewrite (run_baseline_no_name b d post recs pre [] s).
Qed.

End merge_more.

(** ** The instantiator, its outcomes and its composition *)

Section instantiator_more.
Context {Instance Automaton : Type}.
Context (import_plugins : pyval → result (pdict (@Klass Instance Automaton))).
Implicit Types (s : state) (kw : pdict pyval) (aut : option Automaton).

Lemma splat_clash_true given kw k :
  k ∈ given → k ∈ dict_keys kw → splat_clash given kw = true.
Proof.
  intros Hk Hin. unfold splat_clash. apply existsb_exists. exists k.
  split; [by apply list_elem_of_In|]. unfold dict_mem.
  apply bool_decide_eq_true. by apply dict_get_is_Some.
Qed.

(** X13. A plugin that the catalog knows and whose class accepts the
    keywords: the call returns the instance, logs and prints nothing, and
    leaves the store as it is. *)
Theorem from_plugin_classname_success name elr aut sv pf kw s catalog klass instance :
  import_plugins pf = Ok catalog →
  dict_get name catalog = Some klass →
  (∀ k, k ∈ ["exclude_lines_regex"; "automaton"; "should_verify"] → k ∉ dict_keys kw) →
  klass elr aut sv kw = Ok instance →
  from_plugin_classname import_plugins name elr aut sv pf kw s = (Ok (Some instance), s).
Proof.
  intros Hcat Hk Hfree Hok. rewrite run_from_plugin_classname. unfold instantiate.
  rewrite Hcat, Hk. unfold construct. rewrite splat_clash_false by done.
  rewrite Hok. cbn. by rewrite app_nil_r, run_state_eta.
Qed.

(** X14. An exception of the class that is not a type error, a key error
    among them, goes to the caller as it is: no warning is logged and the
    plugin is not taken for an unknown one. *)
Theorem constructor_exception_propagates name elr aut sv pf kw s catalog klass e :
  import_plugins pf = Ok catalog →
  dict_get name catalog = Some klass →
  (∀ k, k ∈ ["exclude_lines_regex"; "automaton"; "should_verify"] → k ∉ dict_keys kw) →
  klass elr aut sv kw = Raise e → e ≠ TypeError →
  from_plugin_classname import_plugins name elr aut sv pf kw s = (Raise e, s).
Proof.
  intros Hcat Hk Hfree Hraise He. rewrite run_from_plugin_classname. unfold instantiate.
  rewrite Hcat, Hk. unfold construct. rewrite splat_clash_false by done.
  rewrite Hraise. destruct e; cbn; by rewrite ?app_nil_r, ?run_state_eta.
Qed.

(** X15. A catalog that fails to load: a key error raised by
    [import_plugins] itself is caught with the lookup and the plugin is
    reported as unknown, nothing returned; any other exception goes to the
    caller with nothing printed. *)
Theorem catalog_failure name elr aut sv pf kw s e :
  import_plugins pf = Raise e →
  from_plugin_classname import_plugins name elr aut sv pf kw s
  = if is_KeyError e
    then (Ok None, State (heap s) (diags s ++ [no_such_plugin_warning name]))
    else (Raise e, s).
Proof.
  intros Hcat. rewrite run_from_plugin_classname. unfold instantiate. rewrite Hcat.
  destruct e; cbn; by rewrite ?app_nil_r, ?run_state_eta.
Qed.

Lemma from_parser_builder_loop_cons cfg elr aut sv pf X names output s :
  from_parser_builder_loop import_plugins cfg (X :: names) elr aut sv pf output s
  = match dict_get X cfg with
    | None => (Raise KeyError, s)
    | Some r =>
        match heap s !! r with
        | None => (Raise BadRef, s)
        | Some kw =>
            if splat_clash given_keywords kw then (Raise TypeError, s)
            else match instantiate import_plugins X elr aut sv pf kw with
                 | (Ok slot, lg) =>
                     from_parser_builder_loop import_plugins cfg names elr aut sv pf
                       (output ++ [slot]) (State (heap s) (diags s ++ lg))
                 | (Raise e, lg) => (Raise e, State (heap s) (diags s ++ lg))
                 end
        end
    end.
Proof.
  cbn [from_parser_builder_loop]. rewrite run_bind. unfold getitem.
  destruct (dict_get X cfg) as [r|]; [|done].
  unfold mret at 1, M_ret at 1. rewrite run_bind. unfold deref at 1.
  destruct (heap s !! r) as [kw|]; [|done]. rewrite run_bind.
  fold given_keywords. destruct (splat_clash given_keywords kw); [done|].
  rewrite run_from_plugin_classname.
  by destruct (instantiate import_plugins X elr aut sv pf kw) as [[slot|e] lg].
Qed.

Lemma from_parser_builder_loop_output cfg elr aut sv pf names : ∀ output s,
  from_parser_builder_loop import_plugins cfg names elr aut sv pf output s
  = match from_parser_builder_loop import_plugins cfg names elr aut sv pf [] s with
    | (Ok slots, s') => (Ok (output ++ slots), s')
    | (Raise e, s') => (Raise e, s')
    end.
Proof.
  induction names as [|X names IH]; intros output s.
  - cbn. by rewrite app_nil_r.
  - rewrite !from_parser_builder_loop_cons.
    destruct (dict_get X cfg) as [r|]; [|done].
    destruct (heap s !! r) as [kw|]; [|done].
    destruct (splat_clash given_keywords kw); [done|].
    destruct (instantiate import_plugins X elr aut sv pf kw) as [[slot|e] lg]; [|done].
    cbn [app]. rewrite (IH (output ++ [slot])), (IH [slot]).
    destruct (from_parser_builder_loop _ _ _ _ _ _ _ [] _) as [[slots|e] s'']; [|done].
    by rewrite <-app_assoc.
Qed.

Lemma from_parser_builder_loop_app cfg elr aut sv pf names1 names2 : ∀ output s,
  from_parser_builder_loop import_plugins cfg (names1 ++ names2) elr aut sv pf output s
  = match from_parser_builder_loop import_plugins cfg names1 elr aut sv pf output s with
    | (Ok out1, s1) =>
        from_parser_builder_loop import_plugins cfg names2 elr aut sv pf out1 s1
    | (Raise e, s1) => (Raise e, s1)
    end.
Proof.
  induction names1 as [|X names1 IH]; intros output s; [done|].
  rewrite <-app_comm_cons, !from_parser_builder_loop_cons.
  destruct (dict_get X cfg) as [r|]; [|done].
  destruct (heap s !! r) as [kw|]; [|done].
  destruct (splat_clash given_keywords kw); [done|].
  destruct (instantiate import_plugins X elr aut sv pf kw) as [[slot|e] lg]; [|done].
  apply IH.
Qed.

Lemma from_parser_builder_loop_ext cfg cfg' elr aut sv pf names : ∀ output s,
  (∀ X, X ∈ names → dict_get X cfg = dict_get X cfg') →
  from_parser_builder_loop import_plugins cfg names elr aut sv pf output s
  = from_parser_builder_loop import_plugins cfg' names elr aut sv pf output s.
Proof.
  induction names as [|X names IH]; intros output s Hsame; [done|].
  rewrite !from_parser_builder_loop_cons, (Hsame X) by left.
  destruct (dict_get X cfg') as [r|]; [|done].
  destruct (heap s !! r) as [kw|]; [|done].
  destruct (splat_clash given_keywords kw); [done|].
  destruct (instantiate import_plugins X elr aut sv pf kw) as [[slot|e] lg]; [|done].
  apply IH. intros X' HX'. apply Hsame. by right.
Qed.

Lemma dict_get_app {V} (d1 d2 : pdict V) k :
  dict_get k (d1 ++ d2)
  = match dict_get k d1 with Some v => Some v | None => dict_get k d2 end.
Proof.
  induction d1 as [|[k0 v0] d1 IH]; [done|]. cbn [app dict_get]. by case_decide.
Qed.

(** X11. Instantiation in parts: for a mapping made of two parts with no
    name in common, [from_parser_builder] instantiates the first part, then
    the second in the state that the first left, and returns the two tuples
    one after the other; an exception in the first part ends the call
    before the second is tried. *)
Theorem from_parser_builder_app cfg1 cfg2 elr aut sv pf s :
  (∀ X, X ∈ dict_keys cfg1 → X ∉ dict_keys cfg2) →
  from_parser_builder import_plugins (cfg1 ++ cfg2) elr aut sv pf s
  = match from_parser_builder import_plugins cfg1 elr aut sv pf s with
    | (Ok out1, s1) =>
        match from_parser_builder import_plugins cfg2 elr aut sv pf s1 with
        | (Ok out2, s2) => (Ok (out1 ++ out2), s2)
        | (Raise e, s2) => (Raise e, s2)
        end
    | (Raise e, s1) => (Raise e, s1)
    end.
Proof.
  intros Hdisj. unfold from_parser_builder, dict_keys. rewrite fmap_app.
  rewrite from_parser_builder_loop_app.
  rewrite (from_parser_builder_loop_ext (cfg1 ++ cfg2) cfg1).
  2:{ intros X HX%dict_get_is_Some. rewrite dict_get_app.
      by destruct HX as [r ->]. }
  destruct (from_parser_builder_loop _ cfg1 _ _ _ _ _ [] s) as [[out1|e] s1]; [|done].
  rewrite from_parser_builder_loop_output.
  rewrite (from_parser_builder_loop_ext (cfg1 ++ cfg2) cfg2); [done|].
  intros X HX. rewrite dict_get_app.
  destruct (dict_get X cfg1) as [r|] eqn:H1; [|done].
  exfalso. apply (Hdisj X); [|done]. apply dict_get_is_Some. by eexists.
Qed.

(** X12. A parameter with the name of a keyword that the call gives by
    itself: when the entries before it were instantiated, the call for the
    entry is a type error that is raised with no warning logged or printed,
    whether the catalog knows the plugin or not. *)
Theorem reserved_parameter_raises cfg1 X r cfg2 elr aut sv pf s out1 s1 kw k :
  from_parser_builder import_plugins cfg1 elr aut sv pf s = (Ok out1, s1) →
  X ∉ dict_keys cfg1 →
  heap s !! r = Some kw → k ∈ given_keywords → k ∈ dict_keys kw →
  from_parser_builder import_plugins (cfg1 ++ (X, r) :: cfg2) elr aut sv pf s
  = (Raise TypeError, s1).
Proof.
  intros Hrun HX Hr Hk Hin. pose proof Hrun as Hrun0.
  unfold from_parser_builder in Hrun |- *. unfold dict_keys in Hrun |- *.
  rewrite fmap_app.
  rewrite from_parser_builder_loop_app.
  rewrite (from_parser_builder_loop_ext (cfg1 ++ (X, r) :: cfg2) cfg1).
  2:{ intros X' HX'%dict_get_is_Some. rewrite dict_get_app.
      by destruct HX' as [r' ->]. }
  rewrite Hrun. rewrite fmap_cons. cbn [fst]. rewrite from_parser_builder_loop_cons.
  rewrite dict_get_app. apply dict_get_None in HX. rewrite HX. cbn [dict_get].
  rewrite decide_True by done.
  assert (heap s1 = heap s) as Hheap.
  { unfold from_parser_builder in Hrun0.
    by apply from_parser_builder_loop_inv in Hrun0 as [? _]. }
  rewrite Hheap, Hr. by rewrite (splat_clash_true _ _ k).
Qed.

End instantiator_more.

(** ** Secret-type lookup, its outcomes *)

Section secret_type_more.
Context {Instance Automaton : Type}.
Context (import_plugins : pyval → result (pdict (@Klass Instance Automaton))).
Context (get_mapping_from_secret_type_to_class_name : pyval → result (pdict string)).
Implicit Types (s : state) (settings : list loc).

Lemma from_secret_type_loop_cons classname plugin rest s :
  from_secret_type_loop import_plugins classname (plugin :: rest) s
  = match heap s !! plugin with
    | None => (Raise BadRef, s)
    | Some d =>
        match dict_get "name" d with
        | None => (Raise KeyError, s)
        | Some name =>
            if eq_str name classname
            then (if splat_clash given_by_secret_type (dict_del "name" d)
                  then raise TypeError
                  else from_plugin_classname import_plugins classname None None false
                         (default VNone (dict_get "plugin_filenames" (dict_del "name" d)))
                         (dict_del "plugin_filenames" (dict_del "name" d)))
                   (State (heap s ++ [dict_del "name" d]) (diags s))
            else from_secret_type_loop import_plugins classname rest s
        end
    end.
Proof.
  cbn [from_secret_type_loop]. unfold getitem_at. rewrite !run_bind. unfold deref at 1.
  destruct (heap s !! plugin) as [d|] eqn:Hd; [|done].
  unfold getitem. destruct (dict_get "name" d) as [name|] eqn:Hname; [|done].
  unfold mret at 1, M_ret at 1. destruct (eq_str name classname); [|done].
  unfold dict_copy. rewrite run_bind.
  rewrite (run_bind_Ok _ _ _ _ _ (run_deref _ _ _ Hd)).
  unfold alloc. unfold pop_at. rewrite !run_bind. unfold deref at 1.
  cbn [heap diags]. rewrite list_lookup_middle by done.
  unfold dict_pop. rewrite Hname. rewrite run_bind. unfold store at 1.
  cbn [heap diags]. rewrite insert_app_r_alt by done. rewrite Nat.sub_diag.
  cbn [insert list_insert]. unfold mret at 1, M_ret at 1.
  erewrite run_bind_Ok; [done|]. apply run_deref. by apply list_lookup_middle.
Qed.

Lemma from_secret_type_loop_others classname pre rest s :
  other_records (heap s) classname pre →
  from_secret_type_loop import_plugins classname (pre ++ rest) s
  = from_secret_type_loop import_plugins classname rest s.
Proof.
  intros Hpre. induction Hpre as [|q pre (dq & nm & Hq & Hnm & Hne) _ IH]; [done|].
  rewrite <-app_comm_cons, from_secret_type_loop_cons. by rewrite Hq, Hnm, Hne.
Qed.

Lemma run_from_secret_type secret_type settings pf s mapping classname :
  get_mapping_from_secret_type_to_class_name pf = Ok mapping →
  dict_get secret_type mapping = Some classname →
  from_secret_type import_plugins get_mapping_from_secret_type_to_class_name
    secret_type settings pf s
  = from_secret_type_loop import_plugins classname settings s.
Proof.
  intros Hmap Hst. unfold from_secret_type, lift_result.
  rewrite (run_bind_Ok _ _ _ mapping s) by by rewrite Hmap.
  unfold try_except, getitem. rewrite Hst.
  by rewrite (run_bind_Ok _ _ _ (Some classname) s).
Qed.

(** X16. Nothing to return: when the mapping has no class for the secret
    type, or when no record of the settings has the name of the class, the
    lookup returns nothing and leaves the store and the diagnostics as they
    are. *)
Theorem from_secret_type_nothing secret_type settings pf s mapping :
  get_mapping_from_secret_type_to_class_name pf = Ok mapping →
  (∀ classname, dict_get secret_type mapping = Some classname →
                other_records (heap s) classname settings) →
  from_secret_type import_plugins get_mapping_from_secret_type_to_class_name
    secret_type settings pf s
  = (Ok None, s).
Proof.
  intros Hmap Hother. destruct (dict_get secret_type mapping) as [classname|] eqn:Hst.
  - rewrite (run_from_secret_type _ _ _ _ mapping classname) by done.
    specialize (Hother classname eq_refl).
    rewrite <-(app_nil_r settings). by rewrite from_secret_type_loop_others.
  - unfold from_secret_type, lift_result.
    rewrite (run_bind_Ok _ _ _ mapping s) by by rewrite Hmap.
    unfold try_except, getitem. rewrite Hst. done.
Qed.

Lemma from_secret_type_loop_store classname settings s :
  ∃ ext, heap (from_secret_type_loop import_plugins classname settings s).2
         = heap s ++ ext.
Proof.
  induction settings as [|plugin rest IH].
  - exists []. by rewrite app_nil_r.
  - rewrite from_secret_type_loop_cons.
    destruct (heap s !! plugin) as [d|]; [|by exists []; rewrite app_nil_r].
    destruct (dict_get "name" d) as [name|]; [|by exists []; rewrite app_nil_r].
    destruct (eq_str name classname); [|done].
    exists [dict_del "name" d].
    destruct (splat_clash _ _); [done|]. by rewrite run_from_plugin_classname.
Qed.

(** X17. The settings are read only: whatever the lookup returns or raises,
    every object that the caller passed, the records of the settings among
    them, is afterwards as it was; the name is taken off a copy. *)
Theorem from_secret_type_leaves_settings secret_type settings pf s r d :
  heap s !! r = Some d →
  heap (from_secret_type import_plugins get_mapping_from_secret_type_to_class_name
          secret_type settings pf s).2 !! r
  = Some d.
Proof.
  intros Hr. unfold from_secret_type, lift_result. rewrite run_bind.
  destruct (get_mapping_from_secret_type_to_class_name pf) as [mapping|e]; [|done].
  rewrite run_bind. unfold try_except, getitem.
  destruct (dict_get secret_type mapping) as [classname|]; [|done].
  rewrite (run_bind_Ok _ _ _ classname s) by done.
  unfold mret at 1, M_ret at 1.
  destruct (from_secret_type_loop_store classname settings s) as [ext ->].
  by apply lookup_app_l_Some.
Qed.

Lemma dict_del_absent {V} (d : pdict V) k : k ∉ dict_keys d → dict_del k d = d.
Proof.
  unfold dict_keys. induction d as [|[k0 v0] d IH]; [done|].
  rewrite fmap_cons, not_elem_of_cons. intros [Hne Hk]. cbn [dict_del fst].
  rewrite decide_False by done. by rewrite IH.
Qed.

(** X18. What the lookup instantiates: the first record whose name is the
    class of the secret type, with the parameters of the record, the name
    left out, and with no line exclusion, no automaton and no verification.
    The plugin sources that it was given select the class name only: the
    class itself is looked up in the catalog of the default sources. *)
Theorem from_secret_type_instantiates secret_type pre plugin post pf s mapping
    classname d :
  get_mapping_from_secret_type_to_class_name pf = Ok mapping →
  dict_get secret_type mapping = Some classname →
  other_records (heap s) classname pre →
  heap s !! plugin = Some d → dict_get "name" d = Some (VStr classname) →
  (∀ k, k ∈ "plugin_filenames" :: given_by_secret_type → k ∉ dict_keys d) →
  from_secret_type import_plugins get_mapping_from_secret_type_to_class_name
    secret_type (pre ++ plugin :: post) pf s
  = from_plugin_classname import_plugins classname None None false VNone
      (dict_del "name" d) (State (heap s ++ [dict_del "name" d]) (diags s)).
Proof.
  intros Hmap Hst Hpre Hd Hname Hfree.
  rewrite (run_from_secret_type _ _ _ _ mapping classname) by done.
  rewrite from_secret_type_loop_others by done.
  rewrite from_secret_type_loop_cons, Hd, Hname. unfold eq_str.
  rewrite bool_decide_eq_true_2 by done.
  assert (∀ k, k ∈ "plugin_filenames" :: given_by_secret_type →
               k ∉ dict_keys (dict_del "name" d)) as Hfree'.
  { intros k Hk Hin%dict_keys_del_subseteq. by apply (Hfree k). }
  rewrite splat_clash_false by (intros k Hk; apply Hfree'; by right).
  assert ("plugin_filenames" ∉ dict_keys (dict_del "name" d)) as Hpf
    by (apply Hfree'; left).
  rewrite (dict_del_absent (dict_del "name" d) "plugin_filenames") by done.
  apply dict_get_None in Hpf. by rewrite Hpf.
Qed.

(** X19. A record without a name: when a record that has no [name] comes
    before any record of the class, the lookup raises the key error, with
    the store and the diagnostics as they were, even if a later record has
    the name of the class. *)
Theorem from_secret_type_record_without_name secret_type pre q post pf s mapping
    classname dq :
  get_mapping_from_secret_type_to_class_name pf = Ok mapping →
  dict_get secret_type mapping = Some classname →
  other_records (heap s) classname pre →
  heap s !! q = Some dq → dict_get "name" dq = None →
  from_secret_type import_plugins get_mapping_from_secret_type_to_class_name
    secret_type (pre ++ q :: post) pf s
  = (Raise KeyError, s).
Proof.
  intros Hmap Hst Hpre Hq Hname.
  rewrite (run_from_secret_type _ _ _ _ mapping classname) by done.
  rewrite from_secret_type_loop_others by done.
  by rewrite from_secret_type_loop_cons, Hq, Hname.
Qed.

End secret_type_more.

(** ** Worked examples of the further properties *)

Lemma merge_instantiates_resolved_witness :
  let args := example_args false [("base64_limit", false)] in
  ∃ out s',
    merge_plugins_from_baseline strict_catalog nothing_disabled [1; 2] args None
      example_state = (Ok out, s') ∧
    out = [Some (Plugin "Base64HighEntropyString" true cli_base64); None] ∧
    ∃ cfg s1,
      resolved_plugins_dict nothing_disabled [1; 2] args example_state = (Ok cfg, s1) ∧
      (use_all_plugins args = true → cfg = plugins args) ∧
      heap s' = heap s1 ∧ length out = length cfg ∧
      ∀ i X, dict_keys cfg !! i = Some X →
        ∃ r kw slot s2,
          dict_get X cfg = Some r ∧ heap s1 !! r = Some kw ∧
          from_plugin_classname strict_catalog X (exclude_lines args) None
            (negb (no_verify args)) (plugin_filenames args) kw s1 = (Ok slot, s2) ∧
          out !! i = Some slot.
Proof.
  do 2 eexists. split; [vm_compute; reflexivity|]. split; [reflexivity|].
  eapply (merge_instantiates_resolved strict_catalog nothing_disabled [1; 2]
            (example_args false [("base64_limit", false)]) None example_state).
  vm_compute. reflexivity.
Defined.

Lemma baseline_only_plugin_set_witness :
  let args := example_args false [("base64_limit", false)] in
  ∃ cfg s', resolved_plugins_dict base64_disabled [1; 2] args example_state = (Ok cfg, s') ∧
    dict_wf cfg ∧
    (∀ X, X ∈ dict_keys cfg ↔ X ∈ example_records.*1 ∧ X ∉ base64_disabled args) ∧
    (NoDup example_records.*1 →
     dict_keys cfg = filter (λ X, X ∉ base64_disabled args) example_records.*1).
Proof.
  apply (baseline_only_plugin_set base64_disabled [1; 2] example_records).
  - reflexivity.
  - apply example_baseline_view.
  - apply example_refs_valid.
Defined.

Lemma use_all_logs_missing_plugins_witness :
  let args := example_args true [("limit", true)] in
  ∃ s', resolved_plugins_dict nothing_disabled [1; 2] args example_state
        = (Ok (plugins args), s') ∧
        diags s'
        = diags example_state
          ++ [not_in_all_plugins "RemovedDetector" "limit"].
Proof.
  apply (use_all_logs_missing_plugins nothing_disabled [1; 2] example_records
           (example_args true [("limit", true)]) example_state).
  - reflexivity.
  - apply example_baseline_view.
  - compute_done.
  - apply example_refs_valid.
Defined.

Lemma baseline_only_logs_unconfigured_witness :
  let args := example_args false [("keyword_exclude", false)] in
  ∃ cfg s', resolved_plugins_dict nothing_disabled [1; 2] args example_state = (Ok cfg, s') ∧
    diags s'
    = diags example_state
      ++ [LogDebug "--keyword-exclude specified, but KeywordDetector not configured! Ignoring..."].
Proof.
  apply (baseline_only_logs_unconfigured nothing_disabled [1; 2] example_records
           (example_args false [("keyword_exclude", false)]) example_state).
  - reflexivity.
  - apply example_baseline_view.
  - apply example_refs_valid.
Defined.

Lemma use_all_plugin_outside_baseline_witness :
  let args := example_args true [("base64_limit", true); ("keyword_exclude", true)] in
  ∃ s', resolved_plugins_dict nothing_disabled [1; 2] args example_state
        = (Ok (plugins args), s') ∧
        heap s' !! 3 = Some cli_keyword.
Proof.
  apply (use_all_plugin_outside_baseline nothing_disabled [1; 2] example_records
           (example_args true [("base64_limit", true); ("keyword_exclude", true)])
           example_state "KeywordDetector" 3 cli_keyword).
  - reflexivity.
  - apply example_baseline_view.
  - apply example_refs_valid.
  - compute_done.
  - reflexivity.
  - reflexivity.
  - compute_done.
Defined.

Lemma baseline_only_plugin_outside_command_line_witness :
  let args := example_args false [("base64_limit", false)] in
  ∃ cfg s' r, resolved_plugins_dict nothing_disabled [1; 2] args example_state = (Ok cfg, s') ∧
              dict_get "RemovedDetector" cfg = Some r ∧
              heap s' !! r = Some [("limit", VInt 7)].
Proof.
  apply (baseline_only_plugin_outside_command_line nothing_disabled [1; 2] example_records
           (example_args false [("base64_limit", false)]) example_state
           "RemovedDetector" [("limit", VInt 7)]).
  - reflexivity.
  - apply example_baseline_view.
  - apply example_refs_valid.
  - reflexivity.
  - compute_done.
  - reflexivity.
Defined.

Lemma use_all_merge_twice_witness :
  let args := example_args true [("base64_limit", true)] in
  ∃ s1 s2,
    resolved_plugins_dict nothing_disabled [1; 2] args example_state
    = (Ok (plugins args), s1) ∧
    resolved_plugins_dict nothing_disabled [1; 2] args s1 = (Ok (plugins args), s2) ∧
    ∀ X l, dict_get X (plugins args) = Some l → heap s2 !! l = heap s1 !! l.
Proof.
  apply (use_all_merge_twice nothing_disabled [1; 2] example_records
           (example_args true [("base64_limit", true)]) example_state).
  - reflexivity.
  - apply example_baseline_view.
  - apply example_records_wf.
  - apply example_refs_valid.
  - compute_done.
  - compute_done.
Defined.

Lemma baseline_only_leaves_inputs_witness :
  heap (merge_plugins_from_baseline strict_catalog nothing_disabled [1; 2]
          (example_args false [("base64_limit", false)]) None example_state).2 !! 0
  = Some cli_base64.
Proof.
  apply (baseline_only_leaves_inputs strict_catalog nothing_disabled [1; 2]
           example_records).
  - reflexivity.
  - apply example_baseline_view.
  - apply example_refs_valid.
  - reflexivity.
Defined.

Lemma use_all_writes_to_args_only_witness :
  heap (merge_plugins_from_baseline strict_catalog nothing_disabled [1; 2]
          (example_args true [("base64_limit", true)]) None example_state).2 !! 1
  = Some baseline_base64.
Proof.
  apply (use_all_writes_to_args_only strict_catalog nothing_disabled [1; 2]
           example_records).
  - reflexivity.
  - apply example_baseline_view.
  - apply example_refs_valid.
  - reflexivity.
  - compute_done.
Defined.

Lemma baseline_record_without_name_witness :
  merge_plugins_from_baseline strict_catalog nothing_disabled ([1] ++ 0 :: [2])
    (example_args false []) None example_state
  = (Raise KeyError,
     State (example_store ++ [[("base64_limit", VFloat 3 0)]]) []).
Proof.
  apply (baseline_record_without_name strict_catalog nothing_disabled [1]
           [("Base64HighEntropyString", baseline_base64)] 0 [2] cli_base64).
  - repeat constructor.
  - reflexivity.
  - reflexivity.
Defined.

Lemma from_parser_builder_app_witness :
  from_parser_builder strict_catalog
    ([("RemovedDetector", 3)] ++ [("Base64HighEntropyString", 0)])
    None None true (VTuple []) example_state
  = match from_parser_builder strict_catalog [("RemovedDetector", 3)]
            None None true (VTuple []) example_state with
    | (Ok out1, s1) =>
        match from_parser_builder strict_catalog [("Base64HighEntropyString", 0)]
                None None true (VTuple []) s1 with
        | (Ok out2, s2) => (Ok (out1 ++ out2), s2)
        | (Raise e, s2) => (Raise e, s2)
        end
    | (Raise e, s1) => (Raise e, s1)
    end.
Proof.
  apply (from_parser_builder_app strict_catalog).
  intros X HX. cbn in HX. apply list_elem_of_singleton in HX as ->. compute_done.
Defined.

Lemma reserved_parameter_raises_witness :
  from_parser_builder lenient_catalog
    ([("Base64HighEntropyString", 0)] ++ ("KeywordDetector", 1) :: [])
    None None true (VTuple []) (State reserved_store [])
  = (Raise TypeError, State reserved_store []).
Proof.
  eapply (reserved_parameter_raises lenient_catalog [("Base64HighEntropyString", 0)]
            "KeywordDetector" 1 [] None None true (VTuple []) (State reserved_store [])
            _ _ [("automaton", VNone)] "automaton").
  - vm_compute. reflexivity.
  - compute_done.
  - reflexivity.
  - compute_done.
  - compute_done.
Defined.

Lemma from_plugin_classname_success_witness :
  from_plugin_classname strict_catalog "Base64HighEntropyString" None None true
    (VTuple []) cli_base64 example_state
  = (Ok (Some (Plugin "Base64HighEntropyString" true cli_base64)), example_state).
Proof.
  eapply (from_plugin_classname_success strict_catalog "Base64HighEntropyString"
            None None true (VTuple []) cli_base64 example_state).
  - reflexivity.
  - reflexivity.
  - apply Forall_forall. compute_done.
  - reflexivity.
Defined.

Lemma constructor_exception_propagates_witness :
  from_plugin_classname failing_catalog "KeywordDetector" None None true
    (VTuple []) cli_keyword example_state
  = (Raise KeyError, example_state).
Proof.
  eapply (constructor_exception_propagates failing_catalog "KeywordDetector"
            None None true (VTuple []) cli_keyword example_state).
  - reflexivity.
  - reflexivity.
  - apply Forall_forall. compute_done.
  - reflexivity.
  - discriminate.
Defined.

Lemma catalog_failure_witness :
  from_plugin_classname broken_catalog "KeywordDetector" None None true
    (VTuple []) cli_keyword example_state
  = (Ok None, State example_store [no_such_plugin_warning "KeywordDetector"]).
Proof.
  apply (catalog_failure broken_catalog "KeywordDetector" None None true
           (VTuple []) cli_keyword example_state KeyError).
  reflexivity.
Defined.

Lemma from_secret_type_nothing_witness :
  from_secret_type strict_catalog example_mapping "Secret Keyword" [1; 2] VNone
    example_state
  = (Ok None, example_state).
Proof.
  eapply (from_secret_type_nothing strict_catalog example_mapping "Secret Keyword"
            [1; 2] VNone example_state).
  - reflexivity.
  - intros classname [= <-]. repeat constructor.
    + exists baseline_base64, (VStr "Base64HighEntropyString"). done.
    + exists baseline_removed, (VStr "RemovedDetector"). done.
Defined.

Lemma from_secret_type_leaves_settings_witness :
  heap (from_secret_type strict_catalog example_mapping "Base64 High Entropy String"
          [2; 1] VNone example_state).2 !! 1
  = Some baseline_base64.
Proof.
  apply (from_secret_type_leaves_settings strict_catalog example_mapping).
  reflexivity.
Defined.

Lemma from_secret_type_instantiates_witness :
  from_secret_type strict_catalog example_mapping "Base64 High Entropy String"
    ([2] ++ 1 :: []) (VTuple ["plugins/custom.py"]) example_state
  = from_plugin_classname strict_catalog "Base64HighEntropyString" None None false
      VNone [("base64_limit", VFloat 3 0)]
      (State (example_store ++ [[("base64_limit", VFloat 3 0)]]) []).
Proof.
  eapply (from_secret_type_instantiates strict_catalog example_mapping
            "Base64 High Entropy String" [2] 1 [] (VTuple ["plugins/custom.py"])
            example_state _ "Base64HighEntropyString" baseline_base64).
  - reflexivity.
  - reflexivity.
  - repeat constructor. exists baseline_removed, (VStr "RemovedDetector"). done.
  - reflexivity.
  - reflexivity.
  - apply Forall_forall. compute_done.
Defined.

Lemma from_secret_type_record_without_name_witness :
  from_secret_type strict_catalog example_mapping "Base64 High Entropy String"
    ([2] ++ 0 :: [1]) VNone example_state
  = (Raise KeyError, example_state).
Proof.
  eapply (from_secret_type_record_without_name strict_catalog example_mapping
            "Base64 High Entropy String" [2] 0 [1] VNone example_state _
            "Base64HighEntropyString" cli_base64).
  - reflexivity.
  - reflexivity.
  - repeat constructor. exists baseline_removed, (VStr "RemovedDetector"). done.
  - reflexivity.
  - reflexivity.
Defined.
